(** * scene/__init__.py: the [Scene] orchestrator

    A shallow embedding of the [Scene] class of [scene/__init__.py]: its
    constructor, [save], [getTrainCameras] and [getTestCameras].

    The constructor is effectful glue code.  It is modelled in a small
    state/exception/log monad over a [World] that holds the file system,
    the process-wide random source and the allocator of object
    identities; every call to an external collaborator and every file
    write is recorded as an [Event]. *)

From Stdlib Require Import Ascii String QArith Qcanon.
From stdpp Require Import numbers countable gmap strings list fin_maps pretty.

(** ** Python values used by the constructor *)

(** [load_iteration] is [None] or an [int].  Truthiness as Python defines
    it: [None] and [0] are false, every other integer is true. *)
Definition truthy (v : option Z) : bool :=
  match v with
  | None => false
  | Some n => negb (n =? 0)%Z
  end.

(** Truthiness of a list: false exactly when it is empty. *)
Definition list_truthy {A} (l : list A) : bool :=
  match l with
  | [] => false
  | _ :: _ => true
  end.

(** [str(n)] / ["{}".format(n)] for an integer: the decimal numeral, with a
    leading [-] for negative numbers (stdpp's [pretty] on [Z]). *)
Definition str_int (n : Z) : string := pretty n.

(** ["{}".format(v)] for [None] or an integer. *)
Definition format_opt (v : option Z) : string :=
  match v with
  | None => "None"
  | Some n => str_int n
  end.

(** ** os.path.join (posixpath) *)

Module os_path.

Definition startswith_sep (s : string) : bool :=
  match s with
  | String c _ => bool_decide (c = "/"%char)
  | EmptyString => false
  end.

Fixpoint endswith_sep (s : string) : bool :=
  match s with
  | EmptyString => false
  | String c EmptyString => bool_decide (c = "/"%char)
  | String _ t => endswith_sep t
  end.

Definition is_empty (s : string) : bool :=
  match s with
  | EmptyString => true
  | String _ _ => false
  end.

(** One round of the loop of [posixpath.join]: an absolute component
    replaces the path, otherwise it is appended, with a separator unless
    the path is empty or already ends with one. *)
Definition join_step (path b : string) : string :=
  if startswith_sep b then b
  else if is_empty path || endswith_sep path then path +:+ b
  else path +:+ "/" +:+ b.

Definition join (a : string) (p : list string) : string :=
  fold_left join_step p a.

End os_path.

(** ** Decimal numerals *)

Definition is_digit (c : ascii) : bool :=
  bool_decide (c ∈ ["0"; "1"; "2"; "3"; "4"; "5"; "6"; "7"; "8"; "9"]%char).

(** [True] on strings that are non-empty and whose last character is a
    digit. *)
Fixpoint ends_in_digit (s : string) : bool :=
  match s with
  | EmptyString => false
  | String c EmptyString => is_digit c
  | String _ t => ends_in_digit t
  end.

(** ** Data model *)

(** [arguments.ModelParams]: the fields the constructor reads.  The record
    is handed on, as a whole, to the camera builder. *)
Record ModelParams := {
  args_model_path : string;
  args_source_path : string;
  args_images : string;
  args_eval : bool;
  args_white_background : bool
}.

(** A Python list object: its identity and its items. *)
Record PyList (A : Type) := {
  oid : nat;
  items : list A
}.
Arguments oid {A} _.
Arguments items {A} _.

(** The two entries of [sceneLoadTypeCallbacks] with the arguments the
    constructor passes to them. *)
Inductive LoaderCall :=
| CallColmap (source_path images : string) (eval : bool)
| CallBlender (source_path : string) (white_background eval : bool).

Section SceneModel.

(** Python floats (resolution scales, the scene radius) are kept
    abstract: only their equality, as dictionary keys, matters. *)
Context {Float : Type} `{Countable Float}.
Context {CamInfo Camera BasicPointCloud Json GaussianModel : Type}.

(** [scene.dataset_readers.SceneInfo] *)
Record SceneInfo := {
  info_point_cloud : BasicPointCloud;
  info_train_cameras : list CamInfo;
  info_test_cameras : list CamInfo;
  info_nerf_normalization : gmap string Float;
  info_ply_path : string
}.

(** The attributes of a [Scene] object. *)
Record Scene := {
  model_path : string;
  loaded_iter : option Z;
  gaussians : GaussianModel;
  train_cameras : gmap Float (PyList Camera);
  test_cameras : gmap Float (PyList Camera);
  cameras_extent : Float
}.

(** Contents of a file: raw bytes, or the JSON array [json.dump] wrote. *)
Inductive FileData :=
| Binary (bytes : list Byte.byte)
| JsonArray (entries : list Json).

Inductive PyKey :=
| KStr (s : string)
| KFloat (x : Float).

Inductive Exn :=
| AssertionError (msg : string)
| FileNotFoundError (path : string)
| KeyError (key : PyKey)
| IndexError.

(** What the constructor and [save] do to the outside: console output,
    calls to the dataset loaders, file writes, and the three operations of
    the Gaussian model. *)
Inductive Event :=
| EvPrint (msg : string)
| EvLoader (call : LoaderCall)
| EvWrite (path : string) (data : FileData)
| EvLoadPly (g : GaussianModel) (path : string)
| EvCreateFromPcd (g : GaussianModel) (pcd : BasicPointCloud) (extent : Float)
| EvSavePly (g : GaussianModel) (path : string).

Record World := {
  files : gmap string FileData;
  dirs : gset string;
  (** iteration numbers of the [iteration_<n>] entries of a folder *)
  saved_iterations : string → list Z;
  (** the process-wide random source: a tape of draws and a cursor *)
  rng_tape : nat → nat;
  rng_pos : nat;
  (** allocator of object identities *)
  next_oid : nat
}.

Definition set_files (fs : gmap string FileData) (w : World) : World :=
  {| files := fs; dirs := dirs w; saved_iterations := saved_iterations w;
     rng_tape := rng_tape w; rng_pos := rng_pos w; next_oid := next_oid w |}.

Definition set_rng_pos (p : nat) (w : World) : World :=
  {| files := files w; dirs := dirs w; saved_iterations := saved_iterations w;
     rng_tape := rng_tape w; rng_pos := p; next_oid := next_oid w |}.

Definition set_next_oid (n : nat) (w : World) : World :=
  {| files := files w; dirs := dirs w; saved_iterations := saved_iterations w;
     rng_tape := rng_tape w; rng_pos := rng_pos w; next_oid := n |}.

(** ** The monad: state, exceptions and an event log *)

Definition M (A : Type) : Type := World → (Exn + A) * World * list Event.

#[local] Instance M_ret : MRet M := λ A a w, (inr a, w, []).

#[local] Instance M_bind : MBind M := λ A B k m w,
  match m w with
  | (inl e, w1, ev1) => (inl e, w1, ev1)
  | (inr a, w1, ev1) =>
      match k a w1 with
      | (r, w2, ev2) => (r, w2, ev1 ++ ev2)
      end
  end.

Definition raise {A} (e : Exn) : M A := λ w, (inl e, w, []).

Definition emit (e : Event) : M unit := λ w, (inr (), w, [e]).

Definition print (msg : string) : M unit := emit (EvPrint msg).

(** ** External collaborators

    The dataset loaders, the camera serializer and the camera constructor
    are parameters; the three operations of the Gaussian model are recorded
    in the log with their arguments.  A collaborator that raises ends the
    construction: such runs do not complete and are not modelled. *)

Variable sceneLoadTypeCallbacks_Colmap : string → string → bool → SceneInfo.
Variable sceneLoadTypeCallbacks_Blender : string → bool → bool → SceneInfo.
Variable camera_to_JSON : nat → CamInfo → Json.
(** the per-record constructor used by the camera builder *)
Variable loadCam : ModelParams → nat → CamInfo → Float → Camera.

Definition run_loader (c : LoaderCall) : SceneInfo :=
  match c with
  | CallColmap p i e => sceneLoadTypeCallbacks_Colmap p i e
  | CallBlender p b e => sceneLoadTypeCallbacks_Blender p b e
  end.

Definition call_loader (c : LoaderCall) : M SceneInfo :=
  emit (EvLoader c);; mret (run_loader c).

(** The maximum of the iteration numbers found, absent when there is none. *)
Definition max_iteration (l : list Z) : option Z :=
  match l with
  | [] => None
  | x :: t => Some (foldr Z.max x t)
  end.

(** Modelled from the spec: [searchForMaxIteration], imported from
    [utils/system_utils.py] and defined outside [scene/__init__.py]: "a
    directory scanner that returns the maximum iteration number found under
    a directory"; with nothing found the iteration is absent. *)
Definition searchForMaxIteration (folder : string) : M (option Z) :=
  λ w, (inr (max_iteration (saved_iterations w folder)), w, []).

(** Modelled from the spec: [cameraList_from_camInfos], imported from
    [utils/camera_utils.py] and defined outside [scene/__init__.py]: "a
    camera-builder function (cameraRecords, scale, config) ->
    list<CameraObject>" whose result follows the order of the records
    passed in.  It returns a new list object. *)
Definition cameraList_from_camInfos (cam_infos : list CamInfo)
    (resolution_scale : Float) (args : ModelParams) : M (PyList Camera) :=
  λ w, (inr {| oid := next_oid w;
               items := imap (λ id c, loadCam args id c resolution_scale)
                             cam_infos |},
        set_next_oid (S (next_oid w)) w, []).

Definition load_ply (g : GaussianModel) (path : string) : M unit :=
  emit (EvLoadPly g path).

Definition create_from_pcd (g : GaussianModel) (pcd : BasicPointCloud)
    (extent : Float) : M unit :=
  emit (EvCreateFromPcd g pcd extent).

Definition save_ply (g : GaussianModel) (path : string) : M unit :=
  emit (EvSavePly g path).

(** ** Python runtime: [os.path.exists], [open], [json.dump], dict lookup *)

Definition path_exists (w : World) (path : string) : bool :=
  bool_decide (path ∈ dom (files w)) || bool_decide (path ∈ dirs w).

Definition os_path_exists (path : string) : M bool :=
  λ w, (inr (path_exists w path), w, []).

(** [with open(src, 'rb') as src_file, open(dst, 'wb') as dest_file:
       dest_file.write(src_file.read())]:
    [src] is opened first and must exist; opening [dst] for writing
    truncates it; then [src] is read and the bytes are written to [dst]. *)
Definition copy_file (src dst : string) : M unit := λ w,
  match files w !! src with
  | None => (inl (FileNotFoundError src), w, [])
  | Some _ =>
      let opened := <[dst := Binary []]> (files w) in
      let data := default (Binary []) (opened !! src) in
      (inr (), set_files (<[dst := data]> opened) w, [EvWrite dst data])
  end.

(** [with open(path, 'w') as file: json.dump(entries, file)] *)
Definition json_dump (entries : list Json) (path : string) : M unit := λ w,
  (inr (), set_files (<[path := JsonArray entries]> (files w)) w,
   [EvWrite path (JsonArray entries)]).

Definition dict_get (d : gmap string Float) (key : string) : M Float :=
  match d !! key with
  | Some v => mret v
  | None => raise (KeyError (KStr key))
  end.

(** ** Python runtime: [random.shuffle] *)

(** [randbelow(n)]: the next draw of the tape, reduced below [n]. *)
Definition randbelow (n : nat) : M nat := λ w,
  (inr (rng_tape w (rng_pos w) `mod` n), set_rng_pos (S (rng_pos w)) w, []).

(** [x[i], x[j] = x[j], x[i]]; [None] stands for an index out of range. *)
Definition swap {A} (x : list A) (i j : nat) : option (list A) :=
  a ← x !! j; b ← x !! i; Some (<[j := b]> (<[i := a]> x)).

(** [for i in reversed(range(1, len(x))): j = randbelow(i + 1); swap] *)
Fixpoint shuffle_from {A} (i : nat) (x : list A) : M (list A) :=
  match i with
  | 0 => mret x
  | S i' =>
      j ← randbelow (S i);
      match swap x i j with
      | Some x' => shuffle_from i' x'
      | None => raise IndexError
      end
  end.

Definition random_shuffle {A} (x : list A) : M (list A) :=
  shuffle_from (length x - 1) x.

(** ** Scene.__init__ *)

(** Lines 37-42. *)
Definition resolve_iteration (model_path : string)
    (load_iteration : option Z) : M (option Z) :=
  if truthy load_iteration then
    loaded_iter ←
      (if bool_decide (load_iteration = Some (-1)%Z)
       then searchForMaxIteration (os_path.join model_path ["point_cloud"])
       else mret load_iteration);
    print ("Loading trained model at iteration " +:+ format_opt loaded_iter);;
    mret loaded_iter
  else mret None.

(** Lines 49-56. *)
Definition load_scene_info (args : ModelParams) : M SceneInfo :=
  is_colmap ← os_path_exists (os_path.join (args_source_path args) ["sparse"]);
  if (is_colmap : bool) then
    call_loader (CallColmap (args_source_path args) (args_images args)
                            (args_eval args))
  else
    is_blender ← os_path_exists
      (os_path.join (args_source_path args) ["transforms_train.json"]);
    if (is_blender : bool) then
      print "Found transforms_train.json file, assuming Blender data set!";;
      call_loader (CallBlender (args_source_path args)
                               (args_white_background args) (args_eval args))
    else raise (AssertionError "Could not recognize scene type!").

(** Lines 66-70: the list that is enumerated for [cameras.json]. *)
Definition camlist_of (scene_info : SceneInfo) : list CamInfo :=
  let camlist := [] in
  let camlist :=
    if list_truthy (info_test_cameras scene_info)
    then camlist ++ info_test_cameras scene_info else camlist in
  let camlist :=
    if list_truthy (info_train_cameras scene_info)
    then camlist ++ info_train_cameras scene_info else camlist in
  camlist.

(** Lines 62-75, the body of [if not self.loaded_iter]. *)
Definition dump_inputs (model_path : string) (scene_info : SceneInfo)
    : M unit :=
  copy_file (info_ply_path scene_info)
            (os_path.join model_path ["input.ply"]);;
  let json_cams := imap camera_to_JSON (camlist_of scene_info) in
  json_dump json_cams (os_path.join model_path ["cameras.json"]).

(** Lines 79-81: both lists of the scene description are shuffled in
    place, the train list first. *)
Definition shuffle_cameras (shuffle : bool) (scene_info : SceneInfo)
    : M SceneInfo :=
  if shuffle then
    train ← random_shuffle (info_train_cameras scene_info);
    test ← random_shuffle (info_test_cameras scene_info);
    mret {| info_point_cloud := info_point_cloud scene_info;
            info_train_cameras := train;
            info_test_cameras := test;
            info_nerf_normalization := info_nerf_normalization scene_info;
            info_ply_path := info_ply_path scene_info |}
  else mret scene_info.

(** Lines 89-93: the loop over [resolution_scales]. *)
Fixpoint build_cameras (args : ModelParams) (scene_info : SceneInfo)
    (resolution_scales : list Float)
    (train test : gmap Float (PyList Camera))
    : M (gmap Float (PyList Camera) * gmap Float (PyList Camera)) :=
  match resolution_scales with
  | [] => mret (train, test)
  | resolution_scale :: rest =>
      print "Loading Training Cameras";;
      tr ← cameraList_from_camInfos (info_train_cameras scene_info)
                                    resolution_scale args;
      print "Loading Test Cameras";;
      te ← cameraList_from_camInfos (info_test_cameras scene_info)
                                    resolution_scale args;
      build_cameras args scene_info rest
                    (<[resolution_scale := tr]> train)
                    (<[resolution_scale := te]> test)
  end.

(** Lines 97-103. *)
Definition init_gaussians (model_path : string) (loaded_iter : option Z)
    (g : GaussianModel) (scene_info : SceneInfo) (extent : Float) : M unit :=
  if truthy loaded_iter then
    load_ply g (os_path.join model_path
                  ["point_cloud"; "iteration_" +:+ format_opt loaded_iter;
                   "point_cloud.ply"])
  else create_from_pcd g (info_point_cloud scene_info) extent.

Definition Scene_init (args : ModelParams) (g : GaussianModel)
    (load_iteration : option Z) (shuffle : bool)
    (resolution_scales : list Float) : M Scene :=
  let model_path := args_model_path args in
  loaded_iter ← resolve_iteration model_path load_iteration;
  scene_info ← load_scene_info args;
  (if negb (truthy loaded_iter)
   then dump_inputs model_path scene_info else mret ());;
  scene_info ← shuffle_cameras shuffle scene_info;
  extent ← dict_get (info_nerf_normalization scene_info) "radius";
  cams ← build_cameras args scene_info resolution_scales ∅ ∅;
  init_gaussians model_path loaded_iter g scene_info extent;;
  mret {| model_path := model_path;
          loaded_iter := loaded_iter;
          gaussians := g;
          train_cameras := cams.1;
          test_cameras := cams.2;
          cameras_extent := extent |}.

(** ** Scene.save, Scene.getTrainCameras, Scene.getTestCameras *)

Definition Scene_save (self : Scene) (iteration : Z) : M unit :=
  let point_cloud_path :=
    os_path.join (model_path self)
                 ["point_cloud/iteration_" +:+ str_int iteration] in
  save_ply (gaussians self) (os_path.join point_cloud_path ["point_cloud.ply"]).

Definition dict_getitem (d : gmap Float (PyList Camera)) (key : Float)
    : Exn + PyList Camera :=
  match d !! key with
  | Some v => inr v
  | None => inl (KeyError (KFloat key))
  end.

Definition getTrainCameras (self : Scene) (scale : Float)
    : Exn + PyList Camera :=
  dict_getitem (train_cameras self) scale.

Definition getTestCameras (self : Scene) (scale : Float)
    : Exn + PyList Camera :=
  dict_getitem (test_cameras self) scale.

(** ** Observations on paths and event logs *)

(** Non-empty and not ending with a separator. *)
Definition plain_end (s : string) : Prop :=
  os_path.is_empty s = false ∧ os_path.endswith_sep s = false.

Definition is_load_ply (e : Event) : bool :=
  match e with EvLoadPly _ _ => true | _ => false end.

Definition is_create_from_pcd (e : Event) : bool :=
  match e with EvCreateFromPcd _ _ _ => true | _ => false end.

Definition is_loader (e : Event) : bool :=
  match e with EvLoader _ => true | _ => false end.

Definition is_write_to (path : string) (e : Event) : bool :=
  match e with EvWrite p _ => bool_decide (p = path) | _ => false end.

Definition count_events (p : Event → bool) (evs : list Event) : nat :=
  length (List.filter p evs).

(** The loader calls of a log, in order. *)
Definition loader_calls (evs : list Event) : list LoaderCall :=
  omap (λ e, match e with EvLoader c => Some c | _ => None end) evs.

(** Every event a computation logs, whatever its outcome, satisfies [P]. *)
Definition emits_only (P : Event → Prop) {A} (m : M A) : Prop :=
  ∀ w r w' evs, m w = (r, w', evs) → Forall P evs.

(** The value lines 37-41 leave in [self.loaded_iter], as a function of
    the selector and of the world. *)
Definition resolved_iteration (mp : string) (li : option Z) (w : World)
    : option Z :=
  if truthy li then
    if bool_decide (li = Some (-1)%Z)
    then max_iteration (saved_iterations w (os_path.join mp ["point_cloud"]))
    else li
  else None.

(** The path line 98 hands to [load_ply]. *)
Definition resume_path (mp : string) (loaded : option Z) : string :=
  os_path.join mp ["point_cloud"; "iteration_" +:+ format_opt loaded;
                   "point_cloud.ply"].

(** What the Blender branch prints before it calls its loader. *)
Definition loader_banner (c : LoaderCall) : list string :=
  match c with
  | CallColmap _ _ _ => []
  | CallBlender _ _ _ =>
      ["Found transforms_train.json file, assuming Blender data set!"]
  end.

(** The loader the dispatch of lines 49-56 selects in a world, if any. *)
Definition selected_loader (args : ModelParams) (w : World)
    : option LoaderCall :=
  if path_exists w (os_path.join (args_source_path args) ["sparse"]) then
    Some (CallColmap (args_source_path args) (args_images args)
                     (args_eval args))
  else if path_exists w (os_path.join (args_source_path args)
                                      ["transforms_train.json"]) then
    Some (CallBlender (args_source_path args) (args_white_background args)
                      (args_eval args))
  else None.

Definition is_print (e : Event) : bool :=
  match e with EvPrint _ => true | _ => false end.

Definition is_write (e : Event) : bool :=
  match e with EvWrite _ _ => true | _ => false end.

(** The number of [randbelow] draws lines 79-81 make. *)
Definition shuffle_draws (shuffle : bool) (scene_info : SceneInfo) : nat :=
  if shuffle
  then (length (info_train_cameras scene_info) - 1)
       + (length (info_test_cameras scene_info) - 1)
  else 0.

(** What a computation may change in the world: the files at the paths
    [free], the cursor of the random source (not at all when [shuffle] is
    off) and the allocator of identities, both only forwards. *)
Definition world_frame (shuffle : bool) (free : list string)
    (w w' : World) : Prop :=
  dirs w' = dirs w
  ∧ saved_iterations w' = saved_iterations w
  ∧ rng_tape w' = rng_tape w
  ∧ (∀ q, q ∉ free → files w' !! q = files w !! q)
  ∧ rng_pos w ≤ rng_pos w'
  ∧ (shuffle = false → rng_pos w' = rng_pos w)
  ∧ next_oid w ≤ next_oid w'.

(** Every run of a computation, whatever its outcome, relates the world
    before to the world after by [R]. *)
Definition frames (R : World → World → Prop) {A} (m : M A) : Prop :=
  ∀ w r w' evs, m w = (r, w', evs) → R w w'.

(** ** Strings: append, separators and decimal numerals *)

Lemma string_append_cons (c : ascii) (a b : string) :
  String c a +:+ b = String c (a +:+ b).
Proof. reflexivity. Qed.

Lemma string_append_assoc (a b c : string) :
  (a +:+ b) +:+ c = a +:+ (b +:+ c).
Proof.
  induction a as [|x a IH]; [done|]. by rewrite !string_append_cons, IH.
Qed.

Lemma is_empty_append (a b : string) :
  os_path.is_empty (a +:+ b) = os_path.is_empty a && os_path.is_empty b.
Proof. by destruct a. Qed.

Lemma endswith_sep_append (a b : string) :
  os_path.is_empty b = false →
  os_path.endswith_sep (a +:+ b) = os_path.endswith_sep b.
Proof.
  intros Hb. induction a as [|c a IH]; [done|].
  rewrite string_append_cons. simpl. rewrite IH.
  destruct (a +:+ b) eqn:E; [|done].
  destruct a, b; simplify_eq/=.
Qed.

Lemma pretty_N_char_digit (x : N) : is_digit (pretty_N_char x) = true.
Proof. unfold pretty_N_char. by repeat case_match. Qed.

Lemma ends_in_digit_cons (c : ascii) (s : string) :
  ends_in_digit s = true → ends_in_digit (String c s) = true.
Proof. by destruct s. Qed.

Lemma pretty_N_go_ends (x : N) (s : string) :
  ends_in_digit s = true → ends_in_digit (pretty_N_go x s) = true.
Proof.
  revert s. induction (N.lt_wf_0 x) as [x _ IH]; intros s Hs.
  destruct (decide (x = 0)%N) as [->|Hx].
  - by rewrite pretty_N_go_0.
  - rewrite pretty_N_go_step by lia.
    apply IH; [apply N.div_lt; lia|]. by apply ends_in_digit_cons.
Qed.

Lemma pretty_N_go_ends_nonzero (x : N) :
  (0 < x)%N → ends_in_digit (pretty_N_go x "") = true.
Proof.
  intros Hx. rewrite pretty_N_go_step by done.
  apply pretty_N_go_ends. simpl. apply pretty_N_char_digit.
Qed.

Lemma pretty_pos_ends_in_digit (p : positive) :
  ends_in_digit (pretty (N.pos p)) = true.
Proof.
  unfold pretty, pretty_N. case_decide; [done|].
  apply pretty_N_go_ends_nonzero. lia.
Qed.

(** [str(n)] ends in a digit, for every integer [n]. *)
Lemma str_int_ends_in_digit (n : Z) : ends_in_digit (str_int n) = true.
Proof.
  unfold str_int, pretty, pretty_Z. destruct n as [|p|p]; [done|..].
  - apply pretty_pos_ends_in_digit.
  - change ("-" +:+ ?s) with (String "-" s).
    apply ends_in_digit_cons, pretty_pos_ends_in_digit.
Qed.

Lemma ends_in_digit_not_sep (s : string) :
  ends_in_digit s = true →
  os_path.endswith_sep s = false ∧ os_path.is_empty s = false.
Proof.
  induction s as [|c s IH]; simpl; [done|].
  destruct s as [|c' s'].
  - intros Hc. split; [|done]. apply bool_decide_eq_false. intros ->.
    by vm_compute in Hc.
  - intros Hs. split; [|done]. by apply IH.
Qed.

(** ** Running the monad *)

Lemma bind_run {A B} (m : M A) (k : A → M B) (w : World) :
  (m ≫= k) w =
  match m w with
  | (inl e, w1, ev1) => (inl e, w1, ev1)
  | (inr a, w1, ev1) =>
      match k a w1 with
      | (r, w2, ev2) => (r, w2, ev1 ++ ev2)
      end
  end.
Proof. reflexivity. Qed.

Lemma bind_ok {A B} (m : M A) (k : A → M B) w b w' evs :
  (m ≫= k) w = (inr b, w', evs) →
  ∃ a w1 ev1 ev2,
    m w = (inr a, w1, ev1) ∧ k a w1 = (inr b, w', ev2) ∧ evs = ev1 ++ ev2.
Proof.
  rewrite bind_run. destruct (m w) as [[[e|a] w1] ev1]; [done|].
  destruct (k a w1) as [[r w2] ev2] eqn:Hk. intros [= -> -> <-].
  by exists a, w1, ev1, ev2.
Qed.

Lemma bind_step {A B} (m : M A) (k : A → M B) w a w1 ev1 :
  m w = (inr a, w1, ev1) →
  (m ≫= k) w = (let '(r, w2, ev2) := k a w1 in (r, w2, ev1 ++ ev2)).
Proof. intros Hm. by rewrite bind_run, Hm. Qed.

(** ** [random.shuffle] returns a permutation and never raises *)

Lemma swap_in_range {A} (x : list A) (i j : nat) :
  i < length x → j < length x →
  ∃ x', swap x i j = Some x' ∧ x' ≡ₚ x ∧ length x' = length x.
Proof.
  intros Hi Hj. unfold swap.
  destruct (lookup_lt_is_Some_2 x j Hj) as [a Ha].
  destruct (lookup_lt_is_Some_2 x i Hi) as [b Hb].
  rewrite Ha, Hb. simpl. eexists; split; [done|]. split.
  - by apply Permutation_insert_swap.
  - by rewrite !length_insert.
Qed.

Lemma shuffle_from_spec {A} (i : nat) (x : list A) (w : World) :
  i < length x →
  ∃ x', shuffle_from i x w = (inr x', set_rng_pos (rng_pos w + i) w, [])
        ∧ x' ≡ₚ x.
Proof.
  revert x w. induction i as [|i IH]; intros x w Hi.
  - exists x. split; [|done]. simpl. destruct w; unfold set_rng_pos; simpl.
    by rewrite Nat.add_0_r.
  - set (j := rng_tape w (rng_pos w) `mod` S (S i)).
    assert (j < length x) as Hj.
    { pose proof (Nat.mod_upper_bound (rng_tape w (rng_pos w)) (S (S i))).
      unfold j. lia. }
    destruct (swap_in_range x (S i) j Hi Hj) as (x1 & Hswap & Hperm & Hlen).
    destruct (IH x1 (set_rng_pos (S (rng_pos w)) w)) as (x' & Hrun & Hperm');
      [lia|].
    exists x'. split; [|by rewrite Hperm'].
    cbn [shuffle_from]. rewrite bind_run. unfold randbelow. fold j.
    rewrite Hswap, Hrun. simpl. do 2 f_equal.
    unfold set_rng_pos; simpl. f_equal. lia.
Qed.

Lemma random_shuffle_spec {A} (x : list A) (w : World) :
  ∃ x', random_shuffle x w
        = (inr x', set_rng_pos (rng_pos w + (length x - 1)) w, [])
        ∧ x' ≡ₚ x.
Proof.
  unfold random_shuffle. destruct x as [|a x].
  - exists []. split; [|done]. simpl. destruct w; unfold set_rng_pos; simpl.
    by rewrite Nat.add_0_r.
  - apply shuffle_from_spec. simpl. lia.
Qed.

(** ** The phases of the constructor *)

(** The value lines 37-41 leave in [self.loaded_iter]. *)
Lemma resolve_iteration_spec (mp : string) (li : option Z) (w : World) :
  ∃ msgs,
    resolve_iteration mp li w
    = (inr (resolved_iteration mp li w), w, EvPrint <$> msgs).
Proof.
  unfold resolve_iteration, resolved_iteration.
  destruct (truthy li); [|by exists []].
  case_bool_decide; eexists [_]; reflexivity.
Qed.

Lemma load_scene_info_spec (args : ModelParams) (w : World) :
  load_scene_info args w =
  match selected_loader args w with
  | Some c =>
      (inr (run_loader c), w, (EvPrint <$> loader_banner c) ++ [EvLoader c])
  | None => (inl (AssertionError "Could not recognize scene type!"), w, [])
  end.
Proof.
  unfold load_scene_info, selected_loader. rewrite bind_run.
  unfold os_path_exists at 1.
  destruct (path_exists w (os_path.join _ ["sparse"])); [done|].
  rewrite bind_run. unfold os_path_exists.
  by destruct (path_exists w (os_path.join _ ["transforms_train.json"])).
Qed.

Lemma camlist_of_app (info : SceneInfo) :
  camlist_of info = info_test_cameras info ++ info_train_cameras info.
Proof.
  unfold camlist_of.
  destruct (info_test_cameras info), (info_train_cameras info); simpl;
    by rewrite ?app_nil_r.
Qed.

Lemma dump_inputs_ok (mp : string) (info : SceneInfo) w u w' evs :
  dump_inputs mp info w = (inr u, w', evs) →
  ∃ data,
    let dst := os_path.join mp ["input.ply"] in
    let cams := os_path.join mp ["cameras.json"] in
    let entries := JsonArray (imap camera_to_JSON (camlist_of info)) in
    is_Some (files w !! info_ply_path info)
    ∧ <[dst := Binary []]> (files w) !! info_ply_path info = Some data
    ∧ w' = set_files (<[cams := entries]> (<[dst := data]>
                        (<[dst := Binary []]> (files w)))) w
    ∧ evs = [EvWrite dst data; EvWrite cams entries].
Proof.
  unfold dump_inputs.
  set (dst := os_path.join mp ["input.ply"]).
  set (cams := os_path.join mp ["cameras.json"]).
  rewrite bind_run. unfold copy_file.
  destruct (files w !! info_ply_path info) as [d|] eqn:Hsrc; [|done].
  assert (is_Some (<[dst := Binary []]> (files w) !! info_ply_path info))
    as [data Hdata].
  { rewrite lookup_insert. case_decide; eauto. }
  rewrite Hdata. unfold json_dump. cbn -[insert lookup].
  intros [= <- <-]. exists data. by destruct w.
Qed.

Lemma shuffle_cameras_spec (sh : bool) (info : SceneInfo) (w : World) :
  ∃ info' p,
    shuffle_cameras sh info w = (inr info', set_rng_pos p w, [])
    ∧ info_train_cameras info' ≡ₚ info_train_cameras info
    ∧ info_test_cameras info' ≡ₚ info_test_cameras info
    ∧ info_point_cloud info' = info_point_cloud info
    ∧ info_nerf_normalization info' = info_nerf_normalization info
    ∧ info_ply_path info' = info_ply_path info
    ∧ (sh = false → info' = info).
Proof.
  unfold shuffle_cameras. destruct sh.
  - destruct (random_shuffle_spec (info_train_cameras info) w)
      as (tr & Htr & Ptr).
    destruct (random_shuffle_spec (info_test_cameras info)
                (set_rng_pos (rng_pos w + (length (info_train_cameras info) - 1)) w))
      as (te & Hte & Pte).
    eexists _, _. split.
    + rewrite bind_run, Htr, bind_run, Hte. reflexivity.
    + done.
  - exists info, (rng_pos w). split; [by destruct w|done].
Qed.

Lemma build_cameras_spec (args : ModelParams) (info : SceneInfo)
    (scales : list Float) (tr te : gmap Float (PyList Camera)) (w : World) :
  ∃ tr' te' msgs,
    build_cameras args info scales tr te w
    = (inr (tr', te'), set_next_oid (next_oid w + 2 * length scales) w,
       EvPrint <$> msgs)
    ∧ dom tr' = dom tr ∪ list_to_set scales
    ∧ dom te' = dom te ∪ list_to_set scales
    ∧ (∀ s, s ∉ scales → tr' !! s = tr !! s ∧ te' !! s = te !! s)
    ∧ (∀ s, s ∈ scales →
         ∃ o1 o2,
           tr' !! s = Some {| oid := o1;
                              items := imap (λ id c, loadCam args id c s)
                                            (info_train_cameras info) |}
           ∧ te' !! s = Some {| oid := o2;
                                items := imap (λ id c, loadCam args id c s)
                                              (info_test_cameras info) |}
           ∧ next_oid w ≤ o1 ∧ o1 < o2
           ∧ o2 < next_oid w + 2 * length scales).
Proof.
  revert tr te w. induction scales as [|s0 scales IH]; intros tr te w.
  - exists tr, te, []. simpl. split.
    { destruct w; unfold set_next_oid; simpl. by rewrite Nat.add_0_r. }
    rewrite !(right_id_L ∅ (∪)). repeat split; try done.
    intros s Hs. by apply elem_of_nil in Hs.
  - set (l1 := {| oid := next_oid w;
                  items := imap (λ id c, loadCam args id c s0)
                                (info_train_cameras info) |}).
    set (l2 := {| oid := S (next_oid w);
                  items := imap (λ id c, loadCam args id c s0)
                                (info_test_cameras info) |}).
    destruct (IH (<[s0 := l1]> tr) (<[s0 := l2]> te)
                 (set_next_oid (S (S (next_oid w))) w))
      as (tr' & te' & msgs & Hrun & Hdtr & Hdte & Hout & Hin).
    exists tr', te',
      ("Loading Training Cameras" :: "Loading Test Cameras" :: msgs).
    split; [|split; [|split; [|split]]].
    + cbn [build_cameras].
      rewrite (bind_step (print _) _ w () w [EvPrint _]) by reflexivity.
      rewrite (bind_step (cameraList_from_camInfos _ _ _) _ w l1
                 (set_next_oid (S (next_oid w)) w) []) by reflexivity.
      rewrite (bind_step (print _) _ _ () (set_next_oid (S (next_oid w)) w)
                 [EvPrint _]) by reflexivity.
      rewrite (bind_step (cameraList_from_camInfos _ _ _) _ _ l2
                 (set_next_oid (S (S (next_oid w))) w) []) by reflexivity.
      rewrite Hrun. unfold set_next_oid. simpl. do 3 f_equal. lia.
    + rewrite Hdtr, dom_insert_L, list_to_set_cons.
      rewrite (comm_L (∪) {[s0]} (dom tr)). by rewrite <-(assoc_L (∪)).
    + rewrite Hdte, dom_insert_L, list_to_set_cons.
      rewrite (comm_L (∪) {[s0]} (dom te)). by rewrite <-(assoc_L (∪)).
    + intros s Hs. apply not_elem_of_cons in Hs as [Hne Hs].
      destruct (Hout s Hs) as [-> ->]. by rewrite !lookup_insert_ne.
    + intros s Hs. destruct (decide (s ∈ scales)) as [Hin'|Hnin].
      * destruct (Hin s Hin') as (o1 & o2 & ? & ? & ? & ? & ?).
        exists o1, o2. simpl in *. repeat split; try done; lia.
      * apply elem_of_cons in Hs as [->|?]; [|done].
        destruct (Hout s0 Hnin) as [-> ->]. rewrite !lookup_insert_eq.
        exists (next_oid w), (S (next_oid w)).
        simpl. repeat split; try done; lia.
Qed.

Lemma init_gaussians_spec mp r g (info : SceneInfo) ext (w : World) :
  init_gaussians mp r g info ext w
  = (inr (), w,
     [if truthy r then EvLoadPly g (resume_path mp r)
      else EvCreateFromPcd g (info_point_cloud info) ext]).
Proof. unfold init_gaussians. by destruct (truthy r). Qed.

(** ** A completed construction, phase by phase *)

Lemma Scene_init_ok args g li sh (scales : list Float) w sc w' evs :
  Scene_init args g li sh scales w = (inr sc, w', evs) →
  let mp := args_model_path args in
  let r := resolved_iteration mp li w in
  ∃ c info' m1 m2 wd dump_evs p n,
    selected_loader args w = Some c
    ∧ (if truthy r then wd = w ∧ dump_evs = []
       else dump_inputs mp (run_loader c) w = (inr (), wd, dump_evs))
    ∧ shuffle_cameras sh (run_loader c) wd = (inr info', set_rng_pos p wd, [])
    ∧ info_nerf_normalization info' !! "radius" = Some (cameras_extent sc)
    ∧ build_cameras args info' scales ∅ ∅ (set_rng_pos p wd)
      = (inr (train_cameras sc, test_cameras sc), w', EvPrint <$> m2)
    ∧ w' = set_next_oid n (set_rng_pos p wd)
    ∧ model_path sc = mp ∧ loaded_iter sc = r ∧ gaussians sc = g
    ∧ evs = (EvPrint <$> m1) ++ (EvPrint <$> loader_banner c)
            ++ [EvLoader c] ++ dump_evs ++ (EvPrint <$> m2)
            ++ [if truthy r then EvLoadPly g (resume_path mp r)
                else EvCreateFromPcd g (info_point_cloud info')
                                     (cameras_extent sc)].
Proof.
  intros Hrun mp r. unfold Scene_init in Hrun. fold mp in Hrun.
  destruct (resolve_iteration_spec mp li w) as [m1 Hres]. fold r in Hres.
  apply bind_ok in Hrun as (r0 & w1 & e1 & e1' & Hres' & Hrun & ->).
  rewrite Hres in Hres'. injection Hres' as <- <- <-.
  apply bind_ok in Hrun as (info & w2 & e2 & e2' & Hload & Hrun & ->).
  rewrite load_scene_info_spec in Hload.
  destruct (selected_loader args w) as [c|] eqn:Hsel; [|done].
  injection Hload as <- <- <-.
  apply bind_ok in Hrun as ([] & wd & e3 & e3' & Hdump & Hrun & ->).
  apply bind_ok in Hrun as (info' & w4 & e4 & e4' & Hsh & Hrun & ->).
  destruct (shuffle_cameras_spec sh (run_loader c) wd)
    as (info'' & p & Hsh' & _).
  rewrite Hsh' in Hsh. injection Hsh as <- <- <-.
  apply bind_ok in Hrun as (ext & w5 & e5 & e5' & Hext & Hrun & ->).
  unfold dict_get in Hext.
  destruct (info_nerf_normalization info'' !! "radius") as [x|] eqn:Hrad;
    [|done].
  injection Hext as <- <- <-.
  apply bind_ok in Hrun as ([tr te] & w6 & e6 & e6' & Hbuild & Hrun & ->).
  destruct (build_cameras_spec args info'' scales ∅ ∅ (set_rng_pos p wd))
    as (tr' & te' & m2 & Hbuild' & _).
  rewrite Hbuild' in Hbuild. injection Hbuild as <- <- <- <-.
  apply bind_ok in Hrun as ([] & w7 & e7 & e7' & Hinit & Hrun & ->).
  injection Hrun as <- <- <-.
  exists c, info'', m1, m2, wd, e3, p,
    (next_oid (set_rng_pos p wd) + 2 * length scales).
  rewrite init_gaussians_spec in Hinit. injection Hinit as <- <-.
  simpl. split; [done|]. split.
  { destruct (truthy r); simpl in Hdump; [by injection Hdump as <- <-|done]. }
  do 7 (split; [done|]).
  by rewrite ?app_nil_r, <-?app_assoc.
Qed.


(** ** What a computation can log *)

Lemma bind_inv {A B} (m : M A) (k : A → M B) w r w' evs :
  (m ≫= k) w = (r, w', evs) →
  (∃ e, m w = (inl e, w', evs) ∧ r = inl e)
  ∨ (∃ a w1 ev1 ev2,
       m w = (inr a, w1, ev1) ∧ k a w1 = (r, w', ev2) ∧ evs = ev1 ++ ev2).
Proof.
  rewrite bind_run. destruct (m w) as [[[e|a] w1] ev1].
  - intros [= <- <- <-]. left. by exists e.
  - destruct (k a w1) as [[r2 w2] ev2] eqn:Hk. intros [= <- <- <-].
    right. by exists a, w1, ev1, ev2.
Qed.

Section Emits.
Variable P : Event → Prop.

Lemma emits_ret {A} (a : A) : emits_only P (mret a).
Proof. intros w r w' evs [= <- <- <-]. constructor. Qed.

Lemma emits_raise {A} (e : Exn) : emits_only P (raise (A:=A) e).
Proof. intros w r w' evs [= <- <- <-]. constructor. Qed.

Lemma emits_bind {A B} (m : M A) (k : A → M B) :
  emits_only P m → (∀ a, emits_only P (k a)) → emits_only P (m ≫= k).
Proof.
  intros Hm Hk w r w' evs Hrun.
  apply bind_inv in Hrun
    as [(e & Hrun & _)|(a & w1 & ev1 & ev2 & Hrun & Hrest & ->)].
  - by eapply Hm.
  - apply Forall_app. split; [by eapply Hm | by eapply Hk].
Qed.

Lemma emits_shuffle_cameras sh (info : SceneInfo) :
  emits_only P (shuffle_cameras sh info).
Proof.
  intros w r w' evs Hrun.
  destruct (shuffle_cameras_spec sh info w) as (info' & p & Hspec & _).
  rewrite Hspec in Hrun. injection Hrun as <- <- <-. constructor.
Qed.

Lemma emits_dict_get d key : emits_only P (dict_get d key).
Proof.
  unfold dict_get. destruct (d !! key); [apply emits_ret|apply emits_raise].
Qed.

Hypothesis P_print : ∀ msg, P (EvPrint msg).

Lemma Forall_prints (msgs : list string) : Forall P (EvPrint <$> msgs).
Proof. induction msgs; constructor; auto. Qed.

Lemma emits_build_cameras args (info : SceneInfo) scales tr te :
  emits_only P (build_cameras args info scales tr te).
Proof.
  intros w r w' evs Hrun.
  destruct (build_cameras_spec args info scales tr te w)
    as (tr' & te' & msgs & Hspec & _).
  rewrite Hspec in Hrun. injection Hrun as <- <- <-. apply Forall_prints.
Qed.

Hypothesis P_write : ∀ path data, P (EvWrite path data).

Lemma emits_dump_inputs mp (info : SceneInfo) :
  emits_only P (dump_inputs mp info).
Proof.
  apply emits_bind.
  - intros w r w' evs. unfold copy_file.
    destruct (files w !! info_ply_path info); intros [= <- <- <-];
      repeat constructor; auto.
  - intros _ w r w' evs [= <- <- <-]. repeat constructor; auto.
Qed.

Hypothesis P_load_ply : ∀ g path, P (EvLoadPly g path).
Hypothesis P_create : ∀ g pcd extent, P (EvCreateFromPcd g pcd extent).

Lemma emits_init_gaussians mp r g (info : SceneInfo) ext :
  emits_only P (init_gaussians mp r g info ext).
Proof.
  intros w res w' evs. rewrite init_gaussians_spec. intros [= <- <- <-].
  repeat constructor. destruct (truthy r); auto.
Qed.

End Emits.

Lemma loader_calls_app (a b : list Event) :
  loader_calls (a ++ b) = loader_calls a ++ loader_calls b.
Proof. apply omap_app. Qed.

Lemma loader_calls_prints (msgs : list string) :
  loader_calls (EvPrint <$> msgs) = [].
Proof. induction msgs; [done|]. by simpl. Qed.

Lemma loader_calls_quiet (evs : list Event) :
  Forall (λ e, is_loader e = false) evs → loader_calls evs = [].
Proof.
  induction 1 as [|e evs He _ IH]; [done|].
  destruct e; simplify_eq/=; done.
Qed.

(** ** Paths built with [os.path.join] *)

Lemma plain_end_append (a b : string) : plain_end b → plain_end (a +:+ b).
Proof.
  intros [Hne Hend]. split.
  - by rewrite is_empty_append, Hne, andb_false_r.
  - by rewrite endswith_sep_append.
Qed.

Lemma plain_end_str_int (pre : string) (n : Z) :
  plain_end (pre +:+ str_int n).
Proof.
  apply plain_end_append.
  destruct (ends_in_digit_not_sep _ (str_int_ends_in_digit n)). by split.
Qed.

Lemma join_step_plain (p b : string) :
  os_path.startswith_sep b = false → plain_end p →
  os_path.join_step p b = p +:+ "/" +:+ b.
Proof.
  intros Hb [Hne Hend]. unfold os_path.join_step. by rewrite Hb, Hne, Hend.
Qed.

(** Joining a relative component prepends a prefix that depends on the
    base path only. *)
Lemma join_step_prefix (p : string) :
  ∃ pre, ∀ b, os_path.startswith_sep b = false →
              os_path.join_step p b = pre +:+ b.
Proof.
  unfold os_path.join_step.
  destruct (os_path.is_empty p || os_path.endswith_sep p).
  - exists p. intros b Hb. by rewrite Hb.
  - exists (p +:+ "/"). intros b Hb.
    by rewrite Hb, string_append_assoc.
Qed.

Lemma save_path_resume_path (mp : string) (n : Z) :
  os_path.join
    (os_path.join mp ["point_cloud/iteration_" +:+ str_int n])
    ["point_cloud.ply"]
  = resume_path mp (Some n).
Proof.
  unfold resume_path, os_path.join, format_opt. cbn [fold_left].
  destruct (join_step_prefix mp) as [pre Hpre].
  rewrite (Hpre ("point_cloud/iteration_" +:+ str_int n)) by done.
  rewrite (Hpre "point_cloud") by done.
  rewrite (join_step_plain (pre +:+ "point_cloud")
             ("iteration_" +:+ str_int n)); [|done|by apply plain_end_append].
  rewrite !join_step_plain;
    [|done|rewrite !string_append_assoc; apply plain_end_append,
             (plain_end_str_int "/iteration_")
      |done|apply plain_end_append, plain_end_str_int].
  by rewrite !string_append_assoc.
Qed.

Lemma save_path_shape (mp : string) (n : Z) :
  os_path.join
    (os_path.join mp ["point_cloud/iteration_" +:+ str_int n])
    ["point_cloud.ply"]
  = os_path.join mp
      ["point_cloud/iteration_" +:+ str_int n +:+ "/point_cloud.ply"].
Proof.
  unfold os_path.join. cbn [fold_left].
  destruct (join_step_prefix mp) as [pre Hpre].
  rewrite !Hpre by done.
  rewrite join_step_plain; [|done|apply plain_end_append, plain_end_str_int].
  by rewrite !string_append_assoc.
Qed.

Lemma input_ply_ne_cameras_json (mp : string) :
  os_path.join mp ["input.ply"] ≠ os_path.join mp ["cameras.json"].
Proof.
  unfold os_path.join. cbn [fold_left].
  destruct (join_step_prefix mp) as [pre Hpre].
  rewrite !Hpre by done. by intros ?%String.app_inj.
Qed.

(** ** Filtering the log of a completed construction *)

Lemma filter_prints (p : Event → bool) (msgs : list string) :
  (∀ m, p (EvPrint m) = false) → List.filter p (EvPrint <$> msgs) = [].
Proof.
  intros Hp. induction msgs as [|m msgs IH]; [done|].
  simpl. by rewrite Hp.
Qed.

Lemma filter_init_log (p : Event → bool) m1 m2 c dump_evs last :
  (∀ m, p (EvPrint m) = false) → (∀ c, p (EvLoader c) = false) →
  List.filter p ((EvPrint <$> m1) ++ (EvPrint <$> loader_banner c)
                 ++ [EvLoader c] ++ dump_evs ++ (EvPrint <$> m2) ++ [last])
  = List.filter p dump_evs ++ List.filter p [last].
Proof.
  intros Hprint Hloader.
  rewrite !List.filter_app, !filter_prints by done.
  simpl. by rewrite Hloader.
Qed.


Lemma truthy_true_iff (v : option Z) :
  truthy v = true ↔ ∃ n, v = Some n ∧ n ≠ 0%Z.
Proof.
  destruct v as [n|]; simpl.
  - rewrite negb_true_iff, Z.eqb_neq. split; [by exists n|].
    by intros (? & [= <-] & ?).
  - split; [done|]. by intros (? & ? & ?).
Qed.

Lemma Scene_init_loaded_iter args g li sh (scales : list Float)
    w sc w' evs :
  Scene_init args g li sh scales w = (inr sc, w', evs) →
  loaded_iter sc = resolved_iteration (args_model_path args) li w.
Proof.
  intros Hrun.
  by destruct (Scene_init_ok _ _ _ _ _ _ _ _ _ Hrun)
    as (c & info' & m1 & m2 & wd & dv & p & n & _ & _ & _ & _ & _ & _
        & _ & Hr & _).
Qed.

(** A completed construction in fresh-training mode: the loader that ran,
    the bytes read from the point-cloud source, the files afterwards and
    the log without its console output and loader call. *)
Lemma Scene_init_fresh args g li sh (scales : list Float) w sc w' evs :
  Scene_init args g li sh scales w = (inr sc, w', evs) →
  truthy (resolved_iteration (args_model_path args) li w) = false →
  let dst := os_path.join (args_model_path args) ["input.ply"] in
  let cams := os_path.join (args_model_path args) ["cameras.json"] in
  ∃ c data,
    let info := run_loader c in
    let entries :=
      JsonArray (imap camera_to_JSON
                   (info_test_cameras info ++ info_train_cameras info)) in
    selected_loader args w = Some c
    ∧ <[dst := Binary []]> (files w) !! info_ply_path info = Some data
    ∧ files w' = <[cams := entries]> (<[dst := data]>
                   (<[dst := Binary []]> (files w)))
    ∧ ∀ p : Event → bool,
        (∀ m, p (EvPrint m) = false) → (∀ c, p (EvLoader c) = false) →
        List.filter p evs
        = List.filter p [EvWrite dst data; EvWrite cams entries;
                         EvCreateFromPcd g (info_point_cloud info)
                                         (cameras_extent sc)].
Proof.
  intros Hrun Hfresh dst cams.
  destruct (Scene_init_ok _ _ _ _ _ _ _ _ _ Hrun)
    as (c & info' & m1 & m2 & wd & dv & p & n & Hsel & Hdump & Hsh & _ & _
        & -> & _ & _ & _ & ->).
  rewrite Hfresh in Hdump |- *.
  apply dump_inputs_ok in Hdump as (data & _ & Hdata & -> & ->).
  destruct (shuffle_cameras_spec sh (run_loader c)
              (set_files (<[cams := JsonArray (imap camera_to_JSON
                                       (camlist_of (run_loader c)))]>
                          (<[dst := data]> (<[dst := Binary []]> (files w))))
                         w))
    as (info'' & p' & Hsh' & _ & _ & Hpcd & _).
  fold dst cams in Hsh. rewrite Hsh' in Hsh. injection Hsh as <- _.
  exists c, data. cbn zeta. rewrite <-camlist_of_app, <-Hpcd.
  split; [done|]. split; [done|]. split; [done|].
  intros q Hprint Hloader. rewrite filter_init_log by done.
  by rewrite <-List.filter_app.
Qed.

(** A completed construction that resumes: no file is touched and the only
    event apart from console output and the loader call is [load_ply]. *)
Lemma Scene_init_resumed args g li sh (scales : list Float) w sc w' evs :
  Scene_init args g li sh scales w = (inr sc, w', evs) →
  truthy (resolved_iteration (args_model_path args) li w) = true →
  files w' = files w
  ∧ ∀ p : Event → bool,
      (∀ m, p (EvPrint m) = false) → (∀ c, p (EvLoader c) = false) →
      List.filter p evs
      = List.filter p
          [EvLoadPly g (resume_path (args_model_path args)
                          (resolved_iteration (args_model_path args) li w))].
Proof.
  intros Hrun Hres.
  destruct (Scene_init_ok _ _ _ _ _ _ _ _ _ Hrun)
    as (c & info' & m1 & m2 & wd & dv & p & n & Hsel & Hdump & Hsh & _ & _
        & -> & _ & _ & _ & ->).
  rewrite Hres in Hdump |- *. destruct Hdump as [-> ->].
  split; [done|]. intros q Hprint Hloader.
  by rewrite filter_init_log.
Qed.


(** The camera mappings of a completed construction. *)
Lemma Scene_init_cameras args g li sh (scales : list Float) w sc w' evs :
  Scene_init args g li sh scales w = (inr sc, w', evs) →
  ∃ c info' wd p,
    selected_loader args w = Some c
    ∧ rng_tape wd = rng_tape w ∧ rng_pos wd = rng_pos w
    ∧ shuffle_cameras sh (run_loader c) wd = (inr info', set_rng_pos p wd, [])
    ∧ dom (train_cameras sc) = list_to_set scales
    ∧ dom (test_cameras sc) = list_to_set scales
    ∧ (∀ s, s ∉ scales →
         train_cameras sc !! s = None ∧ test_cameras sc !! s = None)
    ∧ (∀ s, s ∈ scales →
         ∃ o1 o2,
           train_cameras sc !! s
           = Some {| oid := o1;
                     items := imap (λ id c, loadCam args id c s)
                                   (info_train_cameras info') |}
           ∧ test_cameras sc !! s
             = Some {| oid := o2;
                       items := imap (λ id c, loadCam args id c s)
                                     (info_test_cameras info') |}
           ∧ o1 ≠ o2).
Proof.
  intros Hrun.
  destruct (Scene_init_ok _ _ _ _ _ _ _ _ _ Hrun)
    as (c & info' & m1 & m2 & wd & dv & p & n & Hsel & Hdump & Hsh & _
        & Hbuild & _).
  destruct (build_cameras_spec args info' scales ∅ ∅ (set_rng_pos p wd))
    as (tr & te & msgs & Hspec & Hdtr & Hdte & Hout & Hin).
  rewrite Hspec in Hbuild. injection Hbuild as <- <- _ _.
  exists c, info', wd, p. split; [done|].
  assert (rng_tape wd = rng_tape w ∧ rng_pos wd = rng_pos w) as [? ?].
  { destruct (truthy _); [by destruct Hdump as [-> _]|].
    by apply dump_inputs_ok in Hdump as (data & _ & _ & -> & _). }
  do 3 (split; [done|]).
  rewrite dom_empty_L, (left_id_L ∅ (∪)) in Hdtr, Hdte.
  do 2 (split; [done|]). split.
  - intros s Hs. destruct (Hout s Hs) as [-> ->]. by rewrite !lookup_empty.
  - intros s Hs. destruct (Hin s Hs) as (o1 & o2 & ? & ? & ? & ? & ?).
    exists o1, o2. repeat split; try done. lia.
Qed.

(** Nothing after the dispatch calls a loader. *)
Ltac emits_step :=
  first
    [ apply emits_ret | apply emits_raise | apply emits_dict_get
    | apply emits_shuffle_cameras
    | apply emits_build_cameras; intros; reflexivity
    | apply emits_dump_inputs; intros; reflexivity
    | apply emits_init_gaussians; intros; reflexivity
    | apply emits_bind; [|intros ?]
    | match goal with
      | |- emits_only _ (if ?b then _ else _) => destruct b
      end ].

(** ** The claims *)


(** A completed construction logs exactly one model-initialization call:
    [load_ply] when the guard of line 97 finds [loaded_iter] truthy (a
    non-zero integer), [create_from_pcd] when it finds it falsy ([None] or
    [0]). *)
Lemma model_init_exactly_once args g li sh (scales : list Float)
    w sc w' evs :
  Scene_init args g li sh scales w = (inr sc, w', evs) →
  count_events is_load_ply evs + count_events is_create_from_pcd evs = 1
  ∧ (count_events is_load_ply evs = 1 ↔
     ∃ n, loaded_iter sc = Some n ∧ n ≠ 0%Z)
  ∧ (count_events is_create_from_pcd evs = 1 ↔
     loaded_iter sc = None ∨ loaded_iter sc = Some 0%Z)
  ∧ (∀ n, loaded_iter sc = Some n → n ≠ 0%Z →
       List.filter is_load_ply evs
       = [EvLoadPly g (resume_path (args_model_path args) (Some n))]).
Proof.
  intros Hrun.
  destruct (Scene_init_ok _ _ _ _ _ _ _ _ _ Hrun)
    as (c & info' & m1 & m2 & wd & dv & p & n & _ & Hdump & _ & _ & _ & _
        & _ & Hr & _ & ->).
  rewrite <-Hr in *. clear Hr. unfold count_events.
  rewrite !filter_init_log by done.
  assert (List.filter is_load_ply dv = []
          ∧ List.filter is_create_from_pcd dv = []) as [-> ->].
  { destruct (truthy (loaded_iter sc)).
    - by destruct Hdump as [_ ->].
    - apply dump_inputs_ok in Hdump as (data & _ & _ & _ & ->). done. }
  destruct (loaded_iter sc) as [k|] eqn:Hk; simpl.
  - destruct (Z.eqb_spec k 0) as [->|Hne]; simpl.
    + split; [done|]. split; [|split].
      * split; [done|]. by intros (? & [= <-] & ?).
      * split; [by right|done].
      * by intros ? [= <-] ?.
    + split; [done|]. split; [|split].
      * split; [|done]. intros _. by exists k.
      * split; [done|]. by intros [|[= ->]].
      * by intros ? [= <-] ?.
  - split; [done|]. split; [|split].
    + split; [done|]. by intros (? & ? & ?).
    + split; [by left|done].
    + done.
Qed.


(** C5.  In fresh-training mode the JSON array written to [cameras.json]
    has exactly [len(test_cameras) + len(train_cameras)] entries, one per
    camera, the entry at position [i] being [camera_to_JSON(i, camera)] of
    the [i]-th camera of the test cameras followed by the train cameras;
    the content is the same whether or not the shuffle flag is set. *)
Theorem C5_cameras_json args g li sh (scales : list Float) w sc w' evs :
  Scene_init args g li sh scales w = (inr sc, w', evs) →
  loaded_iter sc = None →
  let cams := os_path.join (args_model_path args) ["cameras.json"] in
  ∃ c entries,
    let tests := info_test_cameras (run_loader c) in
    let trains := info_train_cameras (run_loader c) in
    selected_loader args w = Some c
    ∧ List.filter (is_write_to cams) evs = [EvWrite cams (JsonArray entries)]
    ∧ files w' !! cams = Some (JsonArray entries)
    ∧ length entries = length tests + length trains
    ∧ (∀ i, entries !! i = camera_to_JSON i <$> (tests ++ trains) !! i)
    ∧ (∀ sh2 sc2 w2 evs2,
         Scene_init args g li sh2 scales w = (inr sc2, w2, evs2) →
         List.filter (is_write_to cams) evs2
         = [EvWrite cams (JsonArray entries)]
         ∧ files w2 !! cams = Some (JsonArray entries)).
Proof.
  intros Hrun Hnone cams.
  pose proof (Scene_init_loaded_iter _ _ _ _ _ _ _ _ _ Hrun) as Hr.
  assert (truthy (loaded_iter sc) = false) as Hfresh by (by rewrite Hnone).
  rewrite Hr in Hfresh.
  pose proof (input_ply_ne_cameras_json (args_model_path args)) as Hne.
  fold cams in Hne.
  assert (∀ sh2 sc2 w2 evs2,
    Scene_init args g li sh2 scales w = (inr sc2, w2, evs2) →
    ∃ c, selected_loader args w = Some c ∧
      let entries := imap camera_to_JSON
        (info_test_cameras (run_loader c)
         ++ info_train_cameras (run_loader c)) in
      List.filter (is_write_to cams) evs2 = [EvWrite cams (JsonArray entries)]
      ∧ files w2 !! cams = Some (JsonArray entries)) as Hany.
  { intros sh2 sc2 w2 evs2 Hrun2.
    destruct (Scene_init_fresh _ _ _ _ _ _ _ _ _ Hrun2 Hfresh)
      as (c & data & Hsel & _ & Hfiles & Hlog).
    fold cams in Hfiles, Hlog. exists c. split; [done|]. cbn zeta.
    rewrite Hlog by (intros; simpl; done). simpl.
    rewrite (bool_decide_eq_true_2 (cams = cams)) by done.
    rewrite (bool_decide_eq_false_2 (_ = cams)) by done.
    split; [done|]. by rewrite Hfiles, lookup_insert_eq. }
  destruct (Hany _ _ _ _ Hrun) as (c & Hsel & Hlog & Hfile).
  exists c, (imap camera_to_JSON (info_test_cameras (run_loader c)
                                  ++ info_train_cameras (run_loader c))).
  cbn zeta. split; [done|]. split; [done|]. split; [done|]. split; [|split].
  - by rewrite length_imap, length_app.
  - intros i. apply list_lookup_imap.
  - intros sh2 sc2 w2 evs2 Hrun2.
    destruct (Hany _ _ _ _ Hrun2) as (c2 & Hsel2 & Hlog2 & Hfile2).
    rewrite Hsel in Hsel2. by injection Hsel2 as <-.
Qed.

(** C4.  Dataset-type dispatch: if [sparse] exists under the source path
    the Colmap loader, and only it, is called; otherwise, if
    [transforms_train.json] exists under the source path the Blender
    loader, and only it, is called; if neither is present the construction
    fails with the assertion error "Could not recognize scene type!" and no
    loader is called. *)
Theorem C4_dataset_dispatch args g li sh (scales : list Float)
    w r w' evs :
  Scene_init args g li sh scales w = (r, w', evs) →
  let src := args_source_path args in
  let sparse := path_exists w (os_path.join src ["sparse"]) in
  let transforms :=
    path_exists w (os_path.join src ["transforms_train.json"]) in
  (sparse = true →
     loader_calls evs = [CallColmap src (args_images args) (args_eval args)])
  ∧ (sparse = false → transforms = true →
     loader_calls evs
     = [CallBlender src (args_white_background args) (args_eval args)])
  ∧ (sparse = false → transforms = false →
     r = inl (AssertionError "Could not recognize scene type!")
     ∧ loader_calls evs = []).
Proof.
  intros Hrun src sparse transforms.
  assert (match selected_loader args w with
          | Some c => loader_calls evs = [c]
          | None => r = inl (AssertionError "Could not recognize scene type!")
                    ∧ loader_calls evs = []
          end) as Hsel.
  { unfold Scene_init in Hrun.
    destruct (resolve_iteration_spec (args_model_path args) li w)
      as [m1 Hres].
    apply bind_inv in Hrun
      as [(e & Hres' & _)|(r0 & w1 & e1 & e1' & Hres' & Hrun & ->)];
      rewrite Hres in Hres'; [done|]. injection Hres' as <- <- <-.
    rewrite loader_calls_app, loader_calls_prints. simpl.
    apply bind_inv in Hrun
      as [(e & Hload & ->)|(info & w2 & e2 & e2' & Hload & Hrest & ->)];
      rewrite load_scene_info_spec in Hload;
      destruct (selected_loader args w) as [c|]; try done.
    - by injection Hload as <- <- <-.
    - injection Hload as <- <- <-.
      rewrite !loader_calls_app, loader_calls_prints. simpl.
      rewrite (loader_calls_quiet e2'); [done|].
      match type of Hrest with
      | ?m _ = _ =>
          assert (emits_only (λ e, is_loader e = false) m) as Hquiet
      end.
      { repeat emits_step. }
      exact (Hquiet _ _ _ _ Hrest). }
  unfold selected_loader in Hsel. fold src sparse transforms in Hsel.
  destruct sparse, transforms; repeat split; try done; by destruct Hsel.
Qed.



(** C8.  After construction with resolution scales [S] the train-camera
    mapping and the test-camera mapping have identical key sets, namely
    exactly the scales in [S] and no other key. *)
Theorem C8_same_keys args g li sh (scales : list Float) w sc w' evs :
  Scene_init args g li sh scales w = (inr sc, w', evs) →
  dom (train_cameras sc) = list_to_set scales
  ∧ dom (test_cameras sc) = list_to_set scales
  ∧ dom (train_cameras sc) = dom (test_cameras sc)
  ∧ (∀ s, is_Some (train_cameras sc !! s) ↔ s ∈ scales)
  ∧ (∀ s, is_Some (test_cameras sc !! s) ↔ s ∈ scales).
Proof.
  intros Hrun.
  destruct (Scene_init_cameras _ _ _ _ _ _ _ _ _ Hrun)
    as (c & info' & wd & p & _ & _ & _ & _ & Hdtr & Hdte & _).
  split; [done|]. split; [done|]. split; [congruence|].
  split; intros s; rewrite <-elem_of_dom.
  - by rewrite Hdtr, elem_of_list_to_set.
  - by rewrite Hdte, elem_of_list_to_set.
Qed.

(** C9.  [getTrainCameras(scale)] and [getTestCameras(scale)]: for every
    scale supplied at construction the call returns the list stored for
    that scale, the same list object at every call; for every scale not
    supplied at construction the call fails with a [KeyError] on that
    scale. *)
Theorem C9_get_cameras args g li sh (scales : list Float) w sc w' evs :
  Scene_init args g li sh scales w = (inr sc, w', evs) →
  ∀ s,
    (s ∈ scales →
       ∃ l1 l2,
         train_cameras sc !! s = Some l1
         ∧ test_cameras sc !! s = Some l2
         ∧ getTrainCameras sc s = inr l1
         ∧ getTestCameras sc s = inr l2
         ∧ (∀ l, getTrainCameras sc s = inr l → oid l = oid l1)
         ∧ (∀ l, getTestCameras sc s = inr l → oid l = oid l2)
         ∧ oid l1 ≠ oid l2)
    ∧ (s ∉ scales →
         getTrainCameras sc s = inl (KeyError (KFloat s))
         ∧ getTestCameras sc s = inl (KeyError (KFloat s))).
Proof.
  intros Hrun s.
  destruct (Scene_init_cameras _ _ _ _ _ _ _ _ _ Hrun)
    as (c & info' & wd & p & _ & _ & _ & _ & _ & _ & Hout & Hin).
  unfold getTrainCameras, getTestCameras, dict_getitem. split.
  - intros Hs. destruct (Hin s Hs) as (o1 & o2 & -> & -> & Hne).
    eexists _, _. do 4 (split; [done|]).
    split; [|split]; [by intros l [= <-]..|done].
  - intros Hs. by destruct (Hout s Hs) as [-> ->].
Qed.

(** C10.  Constructing a Scene with the explicit iteration selector [0]
    behaves exactly like fresh-training mode: the construction is the one
    of an absent selector, [loaded_iter] remains unset, [input.ply] and
    [cameras.json] are written, and the model is initialized with
    [create_from_pcd] rather than restored with [load_ply]. *)
Theorem C10_selector_zero args g sh (scales : list Float) w :
  Scene_init args g (Some 0%Z) sh scales w = Scene_init args g None sh scales w
  ∧ ∀ sc w' evs,
      Scene_init args g (Some 0%Z) sh scales w = (inr sc, w', evs) →
      loaded_iter sc = None
      ∧ count_events is_load_ply evs = 0
      ∧ count_events is_create_from_pcd evs = 1
      ∧ count_events
          (is_write_to (os_path.join (args_model_path args) ["input.ply"]))
          evs = 1
      ∧ count_events
          (is_write_to (os_path.join (args_model_path args) ["cameras.json"]))
          evs = 1.
Proof.
  split; [reflexivity|]. intros sc w' evs Hrun.
  pose proof (Scene_init_loaded_iter _ _ _ _ _ _ _ _ _ Hrun) as Hr.
  split; [done|].
  destruct (Scene_init_fresh _ _ _ _ _ _ _ _ _ Hrun eq_refl)
    as (c & data & _ & _ & _ & Hlog).
  pose proof (input_ply_ne_cameras_json (args_model_path args)) as Hne.
  revert Hlog Hne.
  generalize (os_path.join (args_model_path args) ["input.ply"]).
  generalize (os_path.join (args_model_path args) ["cameras.json"]).
  intros cams dst Hlog Hne.
  unfold count_events. rewrite !Hlog by (intros; simpl; done). simpl.
  rewrite (bool_decide_eq_true_2 (dst = dst)) by done.
  rewrite (bool_decide_eq_true_2 (cams = cams)) by done.
  rewrite (bool_decide_eq_false_2 (dst = cams)) by done.
  rewrite (bool_decide_eq_false_2 (cams = dst)) by done.
  done.
Qed.

(** ** Failures of the constructor *)

Lemma bind_raise {A B} (m : M A) (k : A → M B) w e w1 ev1 :
  m w = (inl e, w1, ev1) → (m ≫= k) w = (inl e, w1, ev1).
Proof. intros Hm. by rewrite bind_run, Hm. Qed.

Lemma shuffle_cameras_cursor sh (info : SceneInfo) (w : World) :
  ∃ info',
    shuffle_cameras sh info w
    = (inr info', set_rng_pos (rng_pos w + shuffle_draws sh info) w, [])
    ∧ info_nerf_normalization info' = info_nerf_normalization info
    ∧ info_point_cloud info' = info_point_cloud info.
Proof.
  unfold shuffle_cameras, shuffle_draws. destruct sh.
  - destruct (random_shuffle_spec (info_train_cameras info) w)
      as (tr & Htr & _).
    destruct (random_shuffle_spec (info_test_cameras info)
                (set_rng_pos (rng_pos w + (length (info_train_cameras info) - 1)) w))
      as (te & Hte & _).
    exists {| info_point_cloud := info_point_cloud info;
              info_train_cameras := tr;
              info_test_cameras := te;
              info_nerf_normalization := info_nerf_normalization info;
              info_ply_path := info_ply_path info |}.
    split; [|done].
    rewrite (bind_step _ _ _ _ _ _ Htr), (bind_step _ _ _ _ _ _ Hte).
    unfold set_rng_pos. simpl. do 3 f_equal. lia.
  - exists info. split; [|done]. destruct w; unfold set_rng_pos; simpl.
    by rewrite Nat.add_0_r.
Qed.



(** X2.  On an unrecognized data set the constructor fails before any side
    effect: the world is left as it was and the log holds console output
    only. *)
Theorem unrecognized_layout_no_effect args g li sh (scales : list Float) w :
  selected_loader args w = None →
  ∃ msgs,
    Scene_init args g li sh scales w
    = (inl (AssertionError "Could not recognize scene type!"), w,
       EvPrint <$> msgs).
Proof.
  intros Hsel. unfold Scene_init.
  destruct (resolve_iteration_spec (args_model_path args) li w) as [m1 Hres].
  rewrite (bind_step _ _ _ _ _ _ Hres).
  pose proof (load_scene_info_spec args w) as Hload. rewrite Hsel in Hload.
  rewrite (bind_raise _ _ _ _ _ _ Hload).
  exists m1. simpl. by rewrite app_nil_r.
Qed.

(** X3.  In fresh-training mode a missing point-cloud source fails the
    construction with [FileNotFoundError] on that path, after the loader
    has run and before anything is written: the world is left as it was,
    [input.ply] is not even created. *)
Theorem missing_source_fails_cleanly args g li sh (scales : list Float)
    w c :
  selected_loader args w = Some c →
  truthy (resolved_iteration (args_model_path args) li w) = false →
  files w !! info_ply_path (run_loader c) = None →
  ∃ msgs,
    Scene_init args g li sh scales w
    = (inl (FileNotFoundError (info_ply_path (run_loader c))), w,
       (EvPrint <$> msgs) ++ [EvLoader c]).
Proof.
  intros Hsel Hfresh Hsrc. unfold Scene_init.
  destruct (resolve_iteration_spec (args_model_path args) li w) as [m1 Hres].
  rewrite (bind_step _ _ _ _ _ _ Hres).
  pose proof (load_scene_info_spec args w) as Hload. rewrite Hsel in Hload.
  rewrite (bind_step _ _ _ _ _ _ Hload).
  rewrite Hfresh. cbn [negb].
  assert (dump_inputs (args_model_path args) (run_loader c) w
          = (inl (FileNotFoundError (info_ply_path (run_loader c))), w, []))
    as Hdump.
  { unfold dump_inputs. rewrite bind_run. unfold copy_file. by rewrite Hsrc. }
  rewrite (bind_raise _ _ _ _ _ _ Hdump).
  exists (m1 ++ loader_banner c). cbn beta iota.
  by rewrite fmap_app, app_nil_r, <-app_assoc.
Qed.


(** ** What the constructor leaves alone *)

Lemma world_frame_refl sh free (w : World) : world_frame sh free w w.
Proof. by repeat split. Qed.

Lemma world_frame_trans sh free (w1 w2 w3 : World) :
  world_frame sh free w1 w2 → world_frame sh free w2 w3 →
  world_frame sh free w1 w3.
Proof.
  intros (Hd & Hs & Ht & Hf & Hp & Hoff & Ho)
         (Hd' & Hs' & Ht' & Hf' & Hp' & Hoff' & Ho').
  repeat split; try congruence; try lia.
  - intros q Hq. by rewrite Hf', Hf.
  - intros Hsh. by rewrite (Hoff' Hsh), (Hoff Hsh).
Qed.

Section Frames.
Variable sh : bool.
Variable free : list string.

Lemma frames_ret {A} (a : A) : frames (world_frame sh free) (mret a).
Proof. intros w r w' evs [= <- <- <-]. apply world_frame_refl. Qed.

Lemma frames_raise {A} (e : Exn) :
  frames (world_frame sh free) (raise (A:=A) e).
Proof. intros w r w' evs [= <- <- <-]. apply world_frame_refl. Qed.

Lemma frames_bind {A B} (m : M A) (k : A → M B) :
  frames (world_frame sh free) m →
  (∀ a, frames (world_frame sh free) (k a)) →
  frames (world_frame sh free) (m ≫= k).
Proof.
  intros Hm Hk w r w' evs Hrun.
  apply bind_inv in Hrun
    as [(e & Hrun & _)|(a & w1 & ev1 & ev2 & Hrun & Hrest & ->)].
  - by eapply Hm.
  - eapply world_frame_trans; [by eapply Hm | by eapply Hk].
Qed.

Lemma frames_resolve_iteration mp li :
  frames (world_frame sh free) (resolve_iteration mp li).
Proof.
  intros w r w' evs Hrun. destruct (resolve_iteration_spec mp li w) as [m Hs].
  rewrite Hs in Hrun. injection Hrun as _ <- _. apply world_frame_refl.
Qed.

Lemma frames_load_scene_info args :
  frames (world_frame sh free) (load_scene_info args).
Proof.
  intros w r w' evs. rewrite load_scene_info_spec.
  destruct (selected_loader args w); intros [= _ <- _];
    apply world_frame_refl.
Qed.

Lemma frames_dict_get d key : frames (world_frame sh free) (dict_get d key).
Proof.
  unfold dict_get. destruct (d !! key); [apply frames_ret|apply frames_raise].
Qed.

Lemma frames_build_cameras args (info : SceneInfo) scales tr te :
  frames (world_frame sh free) (build_cameras args info scales tr te).
Proof.
  intros w r w' evs Hrun.
  destruct (build_cameras_spec args info scales tr te w)
    as (tr' & te' & msgs & Hspec & _).
  rewrite Hspec in Hrun. injection Hrun as _ <- _.
  repeat split; simpl; try done; lia.
Qed.

Lemma frames_init_gaussians mp r g (info : SceneInfo) ext :
  frames (world_frame sh free) (init_gaussians mp r g info ext).
Proof.
  intros w res w' evs. rewrite init_gaussians_spec. intros [= _ <- _].
  apply world_frame_refl.
Qed.

Lemma frames_shuffle_cameras (info : SceneInfo) :
  frames (world_frame sh free) (shuffle_cameras sh info).
Proof.
  intros w r w' evs Hrun.
  destruct (shuffle_cameras_cursor sh info w) as (info' & Hspec & _).
  rewrite Hspec in Hrun. injection Hrun as _ <- _.
  repeat split; simpl; try done; [lia|].
  intros ->. simpl. lia.
Qed.

Lemma frames_dump_inputs mp (info : SceneInfo) :
  os_path.join mp ["input.ply"] ∈ free →
  os_path.join mp ["cameras.json"] ∈ free →
  frames (world_frame sh free) (dump_inputs mp info).
Proof.
  intros Hdst Hcams w r w' evs. unfold dump_inputs. rewrite bind_run.
  unfold copy_file. destruct (files w !! info_ply_path info).
  - unfold json_dump. cbn -[insert lookup os_path.join].
    intros [= _ <- _]. repeat split; simpl; try done.
    intros q Hq. rewrite !lookup_insert_ne; [done|by intros <-..].
  - intros [= _ <- _]. apply world_frame_refl.
Qed.

End Frames.

(** X5.  Whatever its outcome, the constructor changes no file other than
    [input.ply] and [cameras.json] under the model path, leaves the set of
    directories, the saved iterations and the tape of the random source as
    they were, and with the shuffle flag off makes no random draw at all. *)
Theorem construction_frame args g li sh (scales : list Float) w r w' evs :
  Scene_init args g li sh scales w = (r, w', evs) →
  world_frame sh [os_path.join (args_model_path args) ["input.ply"];
                  os_path.join (args_model_path args) ["cameras.json"]]
              w w'.
Proof.
  revert w r w' evs.
  change (frames
            (world_frame sh
               [os_path.join (args_model_path args) ["input.ply"];
                os_path.join (args_model_path args) ["cameras.json"]])
            (Scene_init args g li sh scales)).
  unfold Scene_init.
  repeat first
    [ apply frames_ret | apply frames_resolve_iteration
    | apply frames_load_scene_info | apply frames_shuffle_cameras
    | apply frames_dict_get | apply frames_build_cameras
    | apply frames_init_gaussians
    | apply frames_dump_inputs; [by left|right; by left]
    | apply frames_bind; [|intros ?]
    | match goal with
      | |- frames _ (if ?b then _ else _) => destruct b
      end ].
Qed.

(** ** Scene extent, save paths and the order of effects *)

(** X6.  The scene extent of a constructed Scene is the ["radius"] of the
    loader's normalization record, untouched by the shuffle, and in
    fresh-training mode the model is created from the loader's point cloud
    with that extent. *)
Theorem extent_is_loader_radius args g li sh (scales : list Float)
    w sc w' evs :
  Scene_init args g li sh scales w = (inr sc, w', evs) →
  ∃ c,
    selected_loader args w = Some c
    ∧ info_nerf_normalization (run_loader c) !! "radius"
      = Some (cameras_extent sc)
    ∧ (loaded_iter sc = None →
       List.filter is_create_from_pcd evs
       = [EvCreateFromPcd g (info_point_cloud (run_loader c))
                          (cameras_extent sc)]).
Proof.
  intros Hrun.
  destruct (Scene_init_ok _ _ _ _ _ _ _ _ _ Hrun)
    as (c & info' & m1 & m2 & wd & dv & p & n & Hsel & _ & Hsh & Hrad & _).
  destruct (shuffle_cameras_cursor sh (run_loader c) wd)
    as (info'' & Hsh' & Hnorm & _).
  rewrite Hsh' in Hsh. injection Hsh as -> _.
  exists c. split; [done|]. split; [by rewrite <-Hnorm|].
  intros Hnone.
  pose proof (Scene_init_loaded_iter _ _ _ _ _ _ _ _ _ Hrun) as Hr.
  destruct (Scene_init_fresh _ _ _ _ _ _ _ _ _ Hrun)
    as (c' & data & Hsel' & _ & _ & Hlog).
  { by rewrite <-Hr, Hnone. }
  rewrite Hsel in Hsel'. injection Hsel' as <-.
  by rewrite Hlog.
Qed.

Lemma string_length_append (a b : string) :
  String.length (a +:+ b) = String.length a + String.length b.
Proof.
  induction a as [|c a IH]; [done|].
  rewrite string_append_cons. simpl. by rewrite IH.
Qed.

Lemma string_append_inv_tail (a b t : string) :
  a +:+ t = b +:+ t → a = b.
Proof.
  revert b. induction a as [|c a IH]; intros [|c' b] Heq; [done|..].
  - apply (f_equal String.length) in Heq.
    change ("" +:+ t) with t in Heq.
    rewrite string_append_cons in Heq. simpl in Heq.
    rewrite string_length_append in Heq. lia.
  - apply (f_equal String.length) in Heq.
    change ("" +:+ t) with t in Heq.
    rewrite string_append_cons in Heq. simpl in Heq.
    rewrite string_length_append in Heq. lia.
  - rewrite !string_append_cons in Heq. injection Heq as -> Heq.
    f_equal. by apply IH.
Qed.

(** X7.  [save] at two different iterations writes to two different paths,
    and never to [input.ply] or [cameras.json]: checkpoints do not
    overwrite one another nor the files of the constructor. *)
Theorem save_paths_distinct (self : Scene) (N M : Z) (w v : World) :
  N ≠ M →
  ∃ p q,
    Scene_save self N w = (inr (), w, [EvSavePly (gaussians self) p])
    ∧ Scene_save self M v = (inr (), v, [EvSavePly (gaussians self) q])
    ∧ p ≠ q
    ∧ p ≠ os_path.join (model_path self) ["input.ply"]
    ∧ p ≠ os_path.join (model_path self) ["cameras.json"].
Proof.
  intros Hne. eexists _, _. split; [reflexivity|]. split; [reflexivity|].
  rewrite !save_path_shape. unfold os_path.join. cbn [fold_left].
  destruct (join_step_prefix (model_path self)) as [pre Hpre].
  rewrite !Hpre by done. split; [|split].
  - intros Heq%String.app_inj.
    apply (String.app_inj "point_cloud/iteration_") in Heq.
    apply string_append_inv_tail in Heq.
    apply Hne. unfold str_int in Heq. by apply (inj pretty) in Heq.
  - by intros Heq%String.app_inj.
  - by intros Heq%String.app_inj.
Qed.

(** X8.  Round trip through the "latest" selector: when the directory scan
    returns [N], with [N] other than [0], a Scene constructed with the
    selector [-1] restores the model from exactly the path [save(N)]
    writes. *)
Theorem latest_round_trip args g (N : Z) sh (scales : list Float)
    (self : Scene) v w sc w' evs :
  N ≠ 0%Z →
  max_iteration
    (saved_iterations w (os_path.join (args_model_path args) ["point_cloud"]))
  = Some N →
  model_path self = args_model_path args →
  Scene_init args g (Some (-1)%Z) sh scales w = (inr sc, w', evs) →
  ∃ path,
    Scene_save self N v = (inr (), v, [EvSavePly (gaussians self) path])
    ∧ loaded_iter sc = Some N
    ∧ List.filter is_load_ply evs = [EvLoadPly g path].
Proof.
  intros H0 Hmax Hmp Hrun.
  assert (resolved_iteration (args_model_path args) (Some (-1)%Z) w = Some N)
    as Hres by done.
  destruct (Scene_init_resumed _ _ _ _ _ _ _ _ _ Hrun) as [_ Hlog].
  { rewrite Hres. apply truthy_true_iff. eauto. }
  exists (os_path.join
            (os_path.join (model_path self)
                          ["point_cloud/iteration_" +:+ str_int N])
            ["point_cloud.ply"]).
  split; [reflexivity|]. split.
  - by rewrite (Scene_init_loaded_iter _ _ _ _ _ _ _ _ _ Hrun).
  - rewrite Hlog, Hres by done. cbn [List.filter is_load_ply].
    by rewrite Hmp, save_path_resume_path.
Qed.

(** X9.  When the point-cloud source of the scene description is the
    [input.ply] of the model path itself, the copy of lines 62-63 destroys
    it: the destination is opened for writing, and so truncated, before the
    source is read, and the file is left empty. *)
Theorem source_aliasing_truncates args g li sh (scales : list Float)
    w sc w' evs c :
  Scene_init args g li sh scales w = (inr sc, w', evs) →
  loaded_iter sc = None →
  selected_loader args w = Some c →
  info_ply_path (run_loader c)
  = os_path.join (args_model_path args) ["input.ply"] →
  let dst := os_path.join (args_model_path args) ["input.ply"] in
  files w' !! dst = Some (Binary [])
  ∧ List.filter (is_write_to dst) evs = [EvWrite dst (Binary [])].
Proof.
  intros Hrun Hnone Hsel Halias dst.
  pose proof (Scene_init_loaded_iter _ _ _ _ _ _ _ _ _ Hrun) as Hr.
  pose proof (input_ply_ne_cameras_json (args_model_path args)) as Hne.
  destruct (Scene_init_fresh _ _ _ _ _ _ _ _ _ Hrun)
    as (c' & data & Hsel' & Hdata & Hfiles & Hlog).
  { by rewrite <-Hr, Hnone. }
  rewrite Hsel in Hsel'. injection Hsel' as <-.
  rewrite Halias in Hdata. fold dst in Hdata, Hfiles, Hlog, Hne.
  rewrite lookup_insert_eq in Hdata. injection Hdata as <-.
  split.
  - rewrite Hfiles, lookup_insert_ne by done. by rewrite lookup_insert_eq.
  - rewrite Hlog by done. simpl.
    rewrite (bool_decide_eq_true_2 (dst = dst)) by done.
    by rewrite (bool_decide_eq_false_2 (_ = dst)).
Qed.

(** X10.  The effects of a completed construction come in a fixed order:
    console output, then the one loader call, then file writes and console
    output only, and last the one call that loads or creates the model. *)
Theorem construction_event_order args g li sh (scales : list Float)
    w sc w' evs :
  Scene_init args g li sh scales w = (inr sc, w', evs) →
  ∃ c before between last,
    selected_loader args w = Some c
    ∧ evs = (EvPrint <$> before) ++ [EvLoader c] ++ between ++ [last]
    ∧ Forall (λ e, is_print e || is_write e = true) between
    ∧ is_load_ply last || is_create_from_pcd last = true.
Proof.
  intros Hrun.
  destruct (Scene_init_ok _ _ _ _ _ _ _ _ _ Hrun)
    as (c & info' & m1 & m2 & wd & dv & p & n & Hsel & Hdump & _ & _ & _ & _
        & _ & _ & _ & ->).
  exists c, (m1 ++ loader_banner c), (dv ++ (EvPrint <$> m2)). eexists.
  split; [done|]. split; [by rewrite fmap_app, <-!app_assoc|]. split.
  - apply Forall_app. split.
    + destruct (truthy _).
      * destruct Hdump as [_ ->]. constructor.
      * apply dump_inputs_ok in Hdump as (data & _ & _ & _ & ->).
        by repeat constructor.
    + clear. induction m2; by constructor.
  - by destruct (truthy _).
Qed.

End SceneModel.

(** ** A concrete scene

    A Colmap data set under [data/] with three train cameras and two test
    cameras, a model directory [out/] that holds iterations 7000 and 30000,
    and resolution scales [1] and [1/2]. *)

Definition ex_colmap (p images : string) (eval : bool)
    : @SceneInfo Qc string (list Z) :=
  {| info_point_cloud := [1; 2; 3]%Z;
     info_train_cameras := ["img0"; "img1"; "img3"];
     info_test_cameras := ["img2"; "img4"];
     info_nerf_normalization := {["radius" := Q2Qc 4]};
     info_ply_path := p +:+ "/sparse/0/points3D.ply" |}.

Definition ex_blender (p : string) (white_background eval : bool)
    : @SceneInfo Qc string (list Z) :=
  {| info_point_cloud := [4; 5]%Z;
     info_train_cameras := ["r_0"; "r_1"];
     info_test_cameras := [];
     info_nerf_normalization := {["radius" := Q2Qc 2]};
     info_ply_path := p +:+ "/points3d.ply" |}.

Definition ex_camera_to_JSON (id : nat) (cam : string) : nat * string :=
  (id, cam).

Definition ex_loadCam (args : ModelParams) (id : nat) (cam : string)
    (scale : Qc) : nat * string * Qc :=
  (id, cam, scale).

Definition ex_args : ModelParams :=
  {| args_model_path := "out";
     args_source_path := "data";
     args_images := "images";
     args_eval := true;
     args_white_background := false |}.

Definition ex_world_with (iterations : list Z) : @World (nat * string) :=
  {| files := {["data/sparse/0/points3D.ply" := Binary [Byte.x70; Byte.x6c; Byte.x79]]};
     dirs := {["data"; "data/sparse"; "out"]};
     saved_iterations :=
       λ folder, if bool_decide (folder = "out/point_cloud")
                 then iterations else [];
     rng_tape := λ k, 7 * k + 3;
     rng_pos := 0;
     next_oid := 0 |}.

Definition ex_world : @World (nat * string) := ex_world_with [7000; 30000]%Z.

(** A world whose source path holds neither [sparse] nor
    [transforms_train.json]. *)
Definition ex_world_unknown : @World (nat * string) :=
  {| files := ∅;
     dirs := {["data"; "out"]};
     saved_iterations := λ _, [];
     rng_tape := λ k, k;
     rng_pos := 0;
     next_oid := 0 |}.

(** A Blender data set: [transforms_train.json] and no [sparse]. *)
Definition ex_world_blender : @World (nat * string) :=
  {| files := {["data/transforms_train.json" := Binary [];
                "data/points3d.ply" := Binary [Byte.x70]]};
     dirs := {["data"; "out"]};
     saved_iterations := λ _, [];
     rng_tape := λ k, k;
     rng_pos := 0;
     next_oid := 0 |}.

Definition ex_scales : list Qc := [Q2Qc 1; Q2Qc (1 # 2)].

Definition ex_init (load_iteration : option Z) (shuffle : bool)
    (w : @World (nat * string)) :=
  Scene_init ex_colmap ex_blender ex_camera_to_JSON ex_loadCam
             ex_args 0 load_iteration shuffle ex_scales w.

(** The scene written by a fresh construction, used as [self] below. *)
Definition ex_self : @Scene Qc _ _ (nat * string * Qc) nat :=
  {| model_path := "out";
     loaded_iter := None;
     gaussians := 0;
     train_cameras := ∅;
     test_cameras := ∅;
     cameras_extent := Q2Qc 4 |}.

Definition ex_save (self : @Scene Qc _ _ (nat * string * Qc) nat)
    (iteration : Z) (w : @World (nat * string)) :=
  Scene_save (BasicPointCloud := list Z) self iteration w.

(** ** The claims on the concrete scene *)



Example model_init_exactly_once_resumed :
  ∃ sc w' evs,
    ex_init (Some 7000%Z) true ex_world = (inr sc, w', evs)
    ∧ count_events is_load_ply evs + count_events is_create_from_pcd evs = 1.
Proof.
  eexists _, _, _. split; [reflexivity|].
  exact (proj1 (model_init_exactly_once
                  ex_colmap ex_blender ex_camera_to_JSON ex_loadCam
                  ex_args 0 (Some 7000%Z) true ex_scales ex_world
                  _ _ _ eq_refl)).
Qed.

(** C2, on the code.  The claim has [load_ply] invoked exactly when an
    iteration was resolved.  With the "latest" selector and [iteration_0]
    the only saved iteration, the constructor resolves the iteration to [0]
    and announces that it loads it; the guards of lines 60 and 97 then find
    it falsy: both files are written and the model is created from the
    point cloud, [load_ply] is not invoked. *)
Theorem C2_latest_zero_not_loaded :
  ∃ sc w' evs,
    ex_init (Some (-1)%Z) false (ex_world_with [0%Z]) = (inr sc, w', evs)
    ∧ loaded_iter sc = Some 0%Z
    ∧ EvPrint "Loading trained model at iteration 0" ∈ evs
    ∧ count_events is_load_ply evs = 0
    ∧ count_events is_create_from_pcd evs = 1
    ∧ count_events (is_write_to "out/input.ply") evs = 1
    ∧ count_events (is_write_to "out/cameras.json") evs = 1.
Proof.
  eexists _, _, _. split; [reflexivity|].
  split; [by vm_compute|]. split; [|by vm_compute]. by left.
Qed.



Lemma C4_witness :
  ∃ r w' evs,
    ex_init None true ex_world = (r, w', evs)
    ∧ loader_calls evs = [CallColmap "data" "images" true].
Proof.
  eexists _, _, _. split; [reflexivity|].
  exact (proj1 (C4_dataset_dispatch
                  ex_colmap ex_blender ex_camera_to_JSON ex_loadCam
                  ex_args 0 None true ex_scales ex_world
                  _ _ _ eq_refl) eq_refl).
Defined.

Example dispatch_blender :
  ∃ sc w' evs,
    ex_init None false ex_world_blender = (inr sc, w', evs)
    ∧ loader_calls evs = [CallBlender "data" false true]
    ∧ cameras_extent sc = Q2Qc 2.
Proof. eexists _, _, _. split; [reflexivity|]. by vm_compute. Qed.

Example dispatch_unknown :
  ∃ w' evs,
    ex_init None false ex_world_unknown
    = (inl (AssertionError "Could not recognize scene type!"), w', evs)
    ∧ loader_calls evs = [].
Proof. eexists _, _. split; [reflexivity|]. by vm_compute. Qed.

Lemma C5_witness :
  ∃ sc w' evs entries,
    ex_init None true ex_world = (inr sc, w', evs)
    ∧ files w' !! "out/cameras.json" = Some (JsonArray entries)
    ∧ length entries = 5.
Proof.
  destruct (C5_cameras_json
              ex_colmap ex_blender ex_camera_to_JSON ex_loadCam
              ex_args 0 None true ex_scales ex_world
              _ _ _ eq_refl eq_refl)
    as (c & entries & Hsel & _ & Hfile & Hlen & _).
  injection Hsel as <-.
  eexists _, _, _, entries. split; [reflexivity|]. split; [exact Hfile|].
  exact Hlen.
Defined.




Lemma C8_witness :
  ∃ sc w' evs,
    ex_init None true ex_world = (inr sc, w', evs)
    ∧ dom (train_cameras sc) = {[Q2Qc 1; Q2Qc (1 # 2)]}
    ∧ dom (test_cameras sc) = {[Q2Qc 1; Q2Qc (1 # 2)]}.
Proof.
  eexists _, _, _. split; [reflexivity|].
  pose proof (C8_same_keys
                ex_colmap ex_blender ex_camera_to_JSON ex_loadCam
                ex_args 0 None true ex_scales ex_world _ _ _ eq_refl)
    as (Htr & Hte & _).
  split; [rewrite Htr|rewrite Hte];
    unfold ex_scales; simpl; by rewrite (right_id_L ∅ (∪)).
Defined.

Lemma C9_witness :
  ∃ sc w' evs l,
    ex_init None false ex_world = (inr sc, w', evs)
    ∧ getTrainCameras sc (Q2Qc 1) = inr l
    ∧ getTrainCameras sc (Q2Qc 2) = inl (KeyError (KFloat (Q2Qc 2))).
Proof.
  pose proof (C9_get_cameras
                ex_colmap ex_blender ex_camera_to_JSON ex_loadCam
                ex_args 0 None false ex_scales ex_world _ _ _ eq_refl)
    as Hget.
  destruct (proj1 (Hget (Q2Qc 1))) as (l1 & l2 & _ & _ & Hl1 & _).
  { by left. }
  destruct (proj2 (Hget (Q2Qc 2))) as [Hmiss _].
  { apply (bool_decide_unpack _). vm_compute. exact I. }
  eexists _, _, _, l1. split; [reflexivity|]. split; [exact Hl1|exact Hmiss].
Defined.

Lemma C10_witness :
  ∃ sc w' evs,
    ex_init (Some 0%Z) true ex_world = (inr sc, w', evs)
    ∧ ex_init (Some 0%Z) true ex_world = ex_init None true ex_world
    ∧ loaded_iter sc = None
    ∧ count_events is_create_from_pcd evs = 1.
Proof.
  eexists _, _, _. split; [reflexivity|].
  pose proof (C10_selector_zero
                ex_colmap ex_blender ex_camera_to_JSON ex_loadCam
                ex_args 0 true ex_scales ex_world) as [Hsame Hrun].
  destruct (Hrun _ _ _ eq_refl) as (Hnone & _ & Hcreate & _).
  split; [exact Hsame|]. split; [exact Hnone|exact Hcreate].
Defined.

(** ** Failures and edge cases on concrete scenes *)

(** A Colmap data set whose point cloud is missing. *)
Definition ex_world_no_source : @World (nat * string) :=
  {| files := ∅;
     dirs := {["data"; "data/sparse"; "out"]};
     saved_iterations := λ _, [];
     rng_tape := λ k, k;
     rng_pos := 0;
     next_oid := 0 |}.


(** A loader whose point-cloud source is the [input.ply] of the model. *)
Definition ex_colmap_alias (p images : string) (eval : bool)
    : @SceneInfo Qc string (list Z) :=
  {| info_point_cloud := [1; 2; 3]%Z;
     info_train_cameras := ["img0"];
     info_test_cameras := [];
     info_nerf_normalization := {["radius" := Q2Qc 4]};
     info_ply_path := "out/input.ply" |}.

Definition ex_world_alias : @World (nat * string) :=
  {| files := {["out/input.ply" := Binary [Byte.x70; Byte.x6c; Byte.x79]]};
     dirs := {["data"; "data/sparse"; "out"]};
     saved_iterations := λ _, [];
     rng_tape := λ k, k;
     rng_pos := 0;
     next_oid := 0 |}.


Lemma unrecognized_layout_no_effect_witness :
  ∃ msgs,
    ex_init (Some 7000%Z) true ex_world_unknown
    = (inl (AssertionError "Could not recognize scene type!"),
       ex_world_unknown, EvPrint <$> msgs).
Proof.
  exact (unrecognized_layout_no_effect
           ex_colmap ex_blender ex_camera_to_JSON ex_loadCam
           ex_args 0 (Some 7000%Z) true ex_scales ex_world_unknown eq_refl).
Defined.

Lemma missing_source_fails_cleanly_witness :
  ∃ msgs,
    ex_init None true ex_world_no_source
    = (inl (FileNotFoundError "data/sparse/0/points3D.ply"),
       ex_world_no_source,
       (EvPrint <$> msgs) ++ [EvLoader (CallColmap "data" "images" true)]).
Proof.
  exact (missing_source_fails_cleanly
           ex_colmap ex_blender ex_camera_to_JSON ex_loadCam
           ex_args 0 None true ex_scales ex_world_no_source
           (CallColmap "data" "images" true) eq_refl eq_refl eq_refl).
Defined.


Lemma construction_frame_witness :
  ∃ r w' evs,
    ex_init None true ex_world = (r, w', evs)
    ∧ files w' !! "data/sparse/0/points3D.ply"
      = files ex_world !! "data/sparse/0/points3D.ply"
    ∧ dirs w' = dirs ex_world.
Proof.
  destruct (ex_init None true ex_world) as [[r w'] evs] eqn:Hrun.
  exists r, w', evs. split; [reflexivity|].
  destruct (construction_frame
              ex_colmap ex_blender ex_camera_to_JSON ex_loadCam
              ex_args 0 None true ex_scales ex_world r w' evs Hrun)
    as (Hdirs & _ & _ & Hfiles & _).
  split; [|exact Hdirs]. apply Hfiles.
  apply (bool_decide_unpack _). vm_compute. exact I.
Defined.

Lemma extent_is_loader_radius_witness :
  ∃ sc w' evs,
    ex_init None true ex_world = (inr sc, w', evs)
    ∧ cameras_extent sc = Q2Qc 4.
Proof.
  destruct (ex_init None true ex_world) as [[[e|sc] w'] evs] eqn:Hrun.
  { exfalso. vm_compute in Hrun. discriminate Hrun. }
  exists sc, w', evs. split; [reflexivity|].
  destruct (extent_is_loader_radius
              ex_colmap ex_blender ex_camera_to_JSON ex_loadCam
              ex_args 0 None true ex_scales ex_world sc w' evs Hrun)
    as (c & Hsel & Hrad & _).
  vm_compute in Hsel. injection Hsel as <-.
  exact (f_equal (default (Q2Qc 0)) (eq_sym Hrad)).
Defined.

Lemma save_paths_distinct_witness :
  ∃ p q,
    ex_save ex_self 7000 ex_world = (inr (), ex_world, [EvSavePly 0 p])
    ∧ ex_save ex_self 30000 ex_world = (inr (), ex_world, [EvSavePly 0 q])
    ∧ p ≠ q.
Proof.
  destruct (save_paths_distinct (BasicPointCloud := list Z)
              ex_self 7000 30000 ex_world ex_world ltac:(lia))
    as (p & q & Hp & Hq & Hne & _).
  exists p, q. split; [exact Hp|]. split; [exact Hq|exact Hne].
Defined.

Lemma latest_round_trip_witness :
  ∃ sc w' evs path,
    ex_init (Some (-1)%Z) false ex_world = (inr sc, w', evs)
    ∧ ex_save ex_self 30000 ex_world
      = (inr (), ex_world, [EvSavePly 0 path])
    ∧ List.filter is_load_ply evs = [EvLoadPly 0 path].
Proof.
  destruct (latest_round_trip
              ex_colmap ex_blender ex_camera_to_JSON ex_loadCam
              ex_args 0 30000%Z false ex_scales ex_self ex_world ex_world
              _ _ _ ltac:(lia) eq_refl eq_refl eq_refl)
    as (path & Hsave & _ & Hload).
  eexists _, _, _, path. split; [reflexivity|]. split; [exact Hsave|].
  exact Hload.
Defined.

Lemma source_aliasing_truncates_witness :
  ∃ sc w' evs,
    Scene_init ex_colmap_alias ex_blender ex_camera_to_JSON ex_loadCam
               ex_args 0 None false ex_scales ex_world_alias
    = (inr sc, w', evs)
    ∧ files ex_world_alias !! "out/input.ply"
      = Some (Binary [Byte.x70; Byte.x6c; Byte.x79])
    ∧ files w' !! "out/input.ply" = Some (Binary []).
Proof.
  eexists _, _, _. split; [reflexivity|]. split; [reflexivity|].
  exact (proj1 (source_aliasing_truncates
                  ex_colmap_alias ex_blender ex_camera_to_JSON ex_loadCam
                  ex_args 0 None false ex_scales ex_world_alias _ _ _
                  (CallColmap "data" "images" true)
                  eq_refl eq_refl eq_refl eq_refl)).
Defined.

Lemma construction_event_order_witness :
  ∃ sc w' evs before between last,
    ex_init (Some 7000%Z) true ex_world = (inr sc, w', evs)
    ∧ evs = (EvPrint <$> before)
            ++ [EvLoader (CallColmap "data" "images" true)]
            ++ between ++ [last]
    ∧ is_load_ply last || is_create_from_pcd last = true.
Proof.
  destruct (construction_event_order
              ex_colmap ex_blender ex_camera_to_JSON ex_loadCam
              ex_args 0 (Some 7000%Z) true ex_scales ex_world _ _ _ eq_refl)
    as (c & before & between & last & Hsel & Hevs & _ & Hlast).
  injection Hsel as <-.
  eexists _, _, _, before, between, last. split; [reflexivity|].
  split; [exact Hevs|exact Hlast].
Defined.
